(** * sta-da-move-to-backup: a model of the DA backup action

    Shallow embedding of
    [.github/actions/sta-da-move-to-backup/sta-da-move-to-backup.js].

    JavaScript strings are sequences of UTF-16 code units; they are modelled
    as [list N].  The remote API, the clock, the credential helper and the
    built-ins of the engine are the environment of a run, the record [Env].
    The script is written in a small monad that threads the outside world,
    collects what the script does (log lines, outputs, status, HTTP requests)
    in a trace and propagates thrown errors, so that statements about "calls
    issued" are statements about the trace of [run]. *)

From Stdlib Require Import List NArith ZArith Bool Lia String Ascii.
Import ListNotations.

Local Open Scope N_scope.
Local Open Scope list_scope.

(** ** JavaScript strings *)

Module Js.

(** A string is its sequence of UTF-16 code units. *)
Definition str := list N.

(** An ASCII literal of the source text, as code units. *)
Definition lit (s : string) : str := map N_of_ascii (list_ascii_of_string s).

Definition eqb (a b : str) : bool :=
  if list_eq_dec N.eq_dec a b then true else false.

(** [!s] is false exactly for the non-empty strings. *)
Definition truthy (s : str) : bool :=
  match s with [] => false | _ :: _ => true end.

(** An optional property: [None] is [undefined]. *)
Definition truthy_opt (o : option str) : bool :=
  match o with Some s => truthy s | None => false end.

Fixpoint startsWith (p s : str) : bool :=
  match p, s with
  | [], _ => true
  | _ :: _, [] => false
  | a :: p', b :: s' => (a =? b) && startsWith p' s'
  end.

(** [s.includes(p)] *)
Fixpoint includes (s p : str) : bool :=
  startsWith p s || match s with [] => false | _ :: s' => includes s' p end.

(** White space and line terminators, as [String.prototype.trim] strips them. *)
Definition isSpace (c : N) : bool :=
  ((9 <=? c) && (c <=? 13)) || (c =? 32) || (c =? 160) || (c =? 5760)
  || ((8192 <=? c) && (c <=? 8202)) || (c =? 8232) || (c =? 8233)
  || (c =? 8239) || (c =? 8287) || (c =? 12288) || (c =? 65279).

Fixpoint trimStart (s : str) : str :=
  match s with
  | c :: s' => if isSpace c then trimStart s' else s
  | [] => []
  end.

Definition trim (s : str) : str := rev (trimStart (rev (trimStart s))).

(** Decimal digits of a number, as [`${n}`] prints a non-negative integer. *)
Fixpoint digits_uint (d : Decimal.uint) : str :=
  match d with
  | Decimal.Nil => []
  | Decimal.D0 d => 48 :: digits_uint d
  | Decimal.D1 d => 49 :: digits_uint d
  | Decimal.D2 d => 50 :: digits_uint d
  | Decimal.D3 d => 51 :: digits_uint d
  | Decimal.D4 d => 52 :: digits_uint d
  | Decimal.D5 d => 53 :: digits_uint d
  | Decimal.D6 d => 54 :: digits_uint d
  | Decimal.D7 d => 55 :: digits_uint d
  | Decimal.D8 d => 56 :: digits_uint d
  | Decimal.D9 d => 57 :: digits_uint d
  end.

Definition ofN (n : N) : str := digits_uint (N.to_uint n).
Definition ofNat (n : nat) : str := ofN (N.of_nat n).

(** [s.slice(0, n)] for a non-negative [n]. *)
Definition slice0 (n : nat) (s : str) : str := firstn n s.

(** [l.join(sep)] *)
Fixpoint join (sep : str) (l : list str) : str :=
  match l with
  | [] => []
  | [x] => x
  | x :: rest => x ++ sep ++ join sep rest
  end.

(** [s.split('/')]: the segments between the separators, never empty. *)
Fixpoint split_slash (s : str) : list str :=
  match s with
  | [] => [[]]
  | c :: r =>
      if c =? 47 then [] :: split_slash r
      else match split_slash r with
           | seg :: segs => (c :: seg) :: segs
           | [] => [[c]]
           end
  end.

End Js.

(** ** [encodeURIComponent] (ECMAScript [Encode] with the empty extra set) *)

Module Uri.

Definition isAlnum (c : N) : bool :=
  ((48 <=? c) && (c <=? 57)) || ((65 <=? c) && (c <=? 90))
  || ((97 <=? c) && (c <=? 122)).

(** The characters left as they are: letters, digits and [_-.!~*'()]. *)
Definition unescaped (c : N) : bool :=
  isAlnum c || (c =? 95) || (c =? 45) || (c =? 46) || (c =? 33)
  || (c =? 126) || (c =? 42) || (c =? 39) || (c =? 40) || (c =? 41).

Definition isLead (c : N) : bool := (55296 <=? c) && (c <=? 56319).
Definition isTrail (c : N) : bool := (56320 <=? c) && (c <=? 57343).

Definition pairToCodePoint (hi lo : N) : N :=
  (hi - 55296) * 1024 + (lo - 56320) + 65536.

(** UTF-8 octets of a code point. *)
Definition utf8 (cp : N) : list N :=
  if cp <? 128 then [cp]
  else if cp <? 2048 then
    [N.lor 192 (N.shiftr cp 6); N.lor 128 (N.land cp 63)]
  else if cp <? 65536 then
    [N.lor 224 (N.shiftr cp 12); N.lor 128 (N.land (N.shiftr cp 6) 63);
     N.lor 128 (N.land cp 63)]
  else
    [N.lor 240 (N.shiftr cp 18); N.lor 128 (N.land (N.shiftr cp 12) 63);
     N.lor 128 (N.land (N.shiftr cp 6) 63); N.lor 128 (N.land cp 63)].

(** An upper-case hexadecimal digit. *)
Definition hexDigit (d : N) : N := if d <? 10 then 48 + d else 55 + d.

(** ["%XY"] for one octet. *)
Definition pct (b : N) : Js.str := [37; hexDigit (b / 16); hexDigit (b mod 16)].

Definition pctAll (bs : list N) : Js.str := flat_map pct bs.

(** [None] is the [URIError] thrown at an unpaired surrogate. *)
Fixpoint encodeURIComponent (s : Js.str) : option Js.str :=
  match s with
  | [] => Some []
  | c :: r =>
      if unescaped c then option_map (cons c) (encodeURIComponent r)
      else if isTrail c then None
      else if isLead c then
        match r with
        | d :: r' =>
            if isTrail d
            then option_map (app (pctAll (utf8 (pairToCodePoint c d))))
                            (encodeURIComponent r')
            else None
        | [] => None
        end
      else option_map (app (pctAll (utf8 c))) (encodeURIComponent r)
  end.

(** [.replace(/%2F/g, '/')] *)
Fixpoint replace_pct2F (s : Js.str) : Js.str :=
  match s with
  | a :: tl =>
      match tl with
      | b :: c :: rest =>
          if (a =? 37) && (b =? 50) && (c =? 70)
          then 47 :: replace_pct2F rest
          else a :: replace_pct2F tl
      | _ => a :: replace_pct2F tl
      end
  | [] => []
  end.

(** The encoding step of [moveSource]:
    [encodeURIComponent(sourcePath).replace(/%2F/g, '/')]. *)
Definition encodeSourcePath (sourcePath : Js.str) : option Js.str :=
  option_map replace_pct2F (encodeURIComponent sourcePath).

(** The encoding as the specification words it: every [/]-separated segment
    is encoded on its own and the results are joined with [/]. *)
Fixpoint encodeAll (segs : list Js.str) : option (list Js.str) :=
  match segs with
  | [] => Some []
  | x :: rest =>
      match encodeURIComponent x with
      | Some e => option_map (cons e) (encodeAll rest)
      | None => None
      end
  end.

Definition encodeBySegment (sourcePath : Js.str) : option Js.str :=
  option_map (Js.join [47]) (encodeAll (Js.split_slash sourcePath)).

End Uri.

(** ** Strings handed to the web platform *)

Module WebIdl.

(** The conversion to a [USVString], which [FormData.append] applies to its
    arguments: every surrogate that stands alone becomes U+FFFD. *)
Fixpoint toUSVString (s : Js.str) : Js.str :=
  match s with
  | [] => []
  | c :: r =>
      if Uri.isTrail c then 65533 :: toUSVString r
      else if Uri.isLead c then
        match r with
        | d :: r' =>
            if Uri.isTrail d then c :: d :: toUSVString r'
            else 65533 :: toUSVString r
        | [] => [65533]
        end
      else c :: toUSVString r
  end.

End WebIdl.

(** ** [Date.prototype.toISOString] *)

Module Date.

(** The UTC fields of a time value, as [toISOString] prints them.  A [Date]
    keeps month, day, hours, minutes, seconds and milliseconds in their
    ranges; the year is any integer. *)
Record utc := {
  year : Z; month : N; day : N;
  hours : N; minutes : N; seconds : N; milliseconds : N
}.

Definition digit (d : N) : N := 48 + d mod 10.

Definition pad2 (n : N) : Js.str := [digit (n / 10); digit n].
Definition pad3 (n : N) : Js.str := digit (n / 100) :: pad2 n.
Definition pad4 (n : N) : Js.str := digit (n / 1000) :: pad3 n.
Definition pad6 (n : N) : Js.str :=
  digit (n / 100000) :: digit (n / 10000) :: pad4 n.

(** Four digits for the years 0 to 9999, a sign and six digits otherwise. *)
Definition yearString (y : Z) : Js.str :=
  if ((0 <=? y) && (y <=? 9999))%Z then pad4 (Z.to_N y)
  else (if (y <? 0)%Z then 45 else 43) :: pad6 (Z.abs_N y).

(** [YYYY-MM-DDTHH:mm:ss.sssZ] *)
Definition toISOString (t : utc) : Js.str :=
  yearString (year t) ++ [45] ++ pad2 (month t) ++ [45] ++ pad2 (day t)
  ++ [84] ++ pad2 (hours t) ++ [58] ++ pad2 (minutes t) ++ [58]
  ++ pad2 (seconds t) ++ [46] ++ pad3 (milliseconds t) ++ [90].

(** [.replace(/[:.]/g, '-')] *)
Definition replace_colon_period (s : Js.str) : Js.str :=
  map (fun c => if (c =? 58) || (c =? 46) then 45 else c) s.

(** The timestamp of [createBackupFolder]:
    [toISOString().replace(/[:.]/g, '-').slice(0, 19)]. *)
Definition timestamp (t : utc) : Js.str :=
  Js.slice0 19 (replace_colon_period (toISOString t)).

(** [YYYY-MM-DDTHH-mm-ss]: date and time of day to the second, every
    separator but [T] a hyphen. *)
Definition secondStamp (t : utc) : Js.str :=
  pad4 (Z.to_N (year t)) ++ [45] ++ pad2 (month t) ++ [45] ++ pad2 (day t)
  ++ [84] ++ pad2 (hours t) ++ [45] ++ pad2 (minutes t) ++ [45]
  ++ pad2 (seconds t).

End Date.

(** ** Data of the action *)

(** A source item of the listing: [name], [path] and [ext] are strings when
    present ([None] is [undefined]); the other fields are passed through
    untouched and only ever printed. *)
Record Source := {
  name : option Js.str;
  path : option Js.str;
  ext : option Js.str
}.

(** What [daFetch] hands back: [null], the body text, or the parsed JSON of
    a listing, which is an array of sources or an object that may carry one
    under [sources]. *)
Inductive JsValue :=
| VNull
| VText (s : Js.str)
| VArray (items : list Source)
| VObject (sources : option (list Source)).

Inductive Method := GET | POST.

(** A [FormData] body: its fields in order. *)
Definition FormData := list (Js.str * Js.str).

(** The second argument of [daFetch]; [headers] is never given. *)
Record Options := {
  opt_method : option Method;
  opt_body : option FormData
}.

(** A request as handed to [fetch]; without a method the transport uses
    [GET]. *)
Record Request := {
  url : Js.str;
  method : option Method;
  headers : list (Js.str * Js.str);
  body : option FormData
}.

(** [json] is the result of [res.json()], [None] when the body does not
    parse. *)
Record Response := {
  status : N;
  contentType : option Js.str;
  text : Js.str;
  json : option JsValue
}.

Definition ok (res : Response) : bool :=
  (200 <=? status res) && (status res <=? 299).

(** A completion: a value, or a thrown [Error] with its [message]. *)
Inductive Completion (A : Type) :=
| Normal (a : A)
| Throw (message : Js.str).
Arguments Normal {A} a.
Arguments Throw {A} message.

Inductive Operation :=
| OpList (org repo path : Js.str)
| OpCreateFolder (org repo parentPath : Js.str)
| OpMove (sourcePath destPath : Js.str).

(** What a run does to the outside, in order.  [Enter] marks the entry into
    one of the three client operations with its arguments; [Fetch] is an
    HTTP request handed to the transport. *)
Inductive Event :=
| Info (m : Js.str)
| Warning (m : Js.str)
| Error (m : Js.str)
| SetOutput (key value : Js.str)
| SetFailed (m : Js.str)
| TokenRequested
| Enter (op : Operation)
| Fetch (req : Request).

(** The environment of a run. *)
Record Env (World : Type) := {
  (** the transport: a response, or a rejection with its message *)
  fetch : Request -> World -> Completion Response * World;
  (** [new Date()] *)
  now : World -> Date.utc;
  (** [./ims-token-helper.js], a black box returning a token or nothing *)
  getAccessTokenWithFallback : World -> Completion (option Js.str) * World;
  (** [JSON.stringify] of a source *)
  stringify : Source -> Js.str;
  (** the engine's messages for reading a property of [null], for a
      malformed URI and for a body that is not JSON *)
  msgNullProperty : Js.str -> Js.str;
  msgURIError : Js.str;
  msgSyntaxError : Js.str
}.
Arguments fetch {World}.
Arguments now {World}.
Arguments getAccessTokenWithFallback {World}.
Arguments stringify {World}.
Arguments msgNullProperty {World}.
Arguments msgURIError {World}.
Arguments msgSyntaxError {World}.

(** The inputs as [core.getInput] returns them (empty when not set). *)
Record Inputs := { in_org : Js.str; in_repo : Js.str; in_path : Js.str }.

Record Backup := { backupName : Js.str; backupPath : Js.str }.

Definition DA_ADMIN_API : Js.str := Js.lit "https://admin.da.live".

Definition reservedItems : list Js.str :=
  [Js.lit "tools"; Js.lit "block-collection"].

(** [reservedItems.includes(source.name)] *)
Definition isReserved (source : Source) : bool :=
  match name source with
  | Some n => existsb (Js.eqb n) reservedItems
  | None => false
  end.

(** [!source.path || !source.name] *)
Definition missingRequired (source : Source) : bool :=
  negb (Js.truthy_opt (path source)) || negb (Js.truthy_opt (name source)).

(** A string-or-undefined value inside a template literal or passed where a
    string is expected. *)
Definition toStr (o : option Js.str) : Js.str :=
  match o with Some s => s | None => Js.lit "undefined" end.

(** [source.ext ? `${source.name}.${source.ext}` : source.name] *)
Definition fileName (source : Source) : Js.str :=
  if Js.truthy_opt (ext source)
  then toStr (name source) ++ [46] ++ toStr (ext source)
  else toStr (name source).

(** [`/${org}/${repo}/${backup.path}/${fileName}`] *)
Definition destPath (org repo : Js.str) (backup : Backup) (source : Source)
  : Js.str :=
  [47] ++ org ++ [47] ++ repo ++ [47] ++ backupPath backup ++ [47]
  ++ fileName source.

(** ** The script *)

Module Run.
Section Action.

Context {World : Type} (env : Env World).

(** A computation starts in a world and ends with a completion, the world
    it leaves behind and the events it caused, in order. *)
Record Outcome (A : Type) := Out {
  result : Completion A;
  after : World;
  events : list Event
}.
Arguments Out {A}.
Arguments result {A}.
Arguments after {A}.
Arguments events {A}.

Definition M (A : Type) : Type := World -> Outcome A.

Definition ret {A} (a : A) : M A := fun w => Out (Normal a) w [].

Definition throw {A} (message : Js.str) : M A := fun w => Out (Throw message) w [].

(** The outcome [o] of what ran after the events [evs]. *)
Definition prepend {A} (evs : list Event) (o : Outcome A) : Outcome A :=
  Out (result o) (after o) (evs ++ events o).

Definition bind {A B} (m : M A) (k : A -> M B) : M B :=
  fun w =>
    match m w with
    | Out (Normal a) w' evs => prepend evs (k a w')
    | Out (Throw e) w' evs => Out (Throw e) w' evs
    end.

(** [try { m } catch (err) { handler err }] *)
Definition tryCatch {A} (m : M A) (handler : Js.str -> M A) : M A :=
  fun w =>
    match m w with
    | Out (Normal a) w' evs => Out (Normal a) w' evs
    | Out (Throw e) w' evs => prepend evs (handler e w')
    end.

Notation "x <- m ;; k" := (bind m (fun x => k))
  (at level 61, m at next level, right associativity).
Notation "m ;; k" := (bind m (fun _ => k))
  (at level 61, right associativity).

Definition emit (e : Event) : M unit := fun w => Out (Normal tt) w [e].

Definition info (m : Js.str) : M unit := emit (Info m).
Definition warning (m : Js.str) : M unit := emit (Warning m).
Definition error (m : Js.str) : M unit := emit (Error m).
Definition setOutput (key value : Js.str) : M unit := emit (SetOutput key value).
Definition setFailed (m : Js.str) : M unit := emit (SetFailed m).

(** [await fetch(url, init)]: the request is recorded, the world answers. *)
Definition doFetch (req : Request) : M Response :=
  fun w => let (r, w') := fetch env req w in Out r w' [Fetch req].

Definition requestToken : M (option Js.str) :=
  fun w =>
    let (r, w') := getAccessTokenWithFallback env w in Out r w' [TokenRequested].

Definition clock : M Date.utc := fun w => Out (Normal (now env w)) w [].

Definition noOptions : Options := {| opt_method := None; opt_body := None |}.

Definition daFetch (token endpoint : Js.str) (options : Options) : M JsValue :=
  let defaultHeaders :=
    [(Js.lit "Authorization", Js.lit "Bearer " ++ token);
     (Js.lit "Accept", Js.lit "application/json")]
    ++ match opt_body options with
       | Some _ => []
       | None => [(Js.lit "Content-Type", Js.lit "application/json")]
       end in
  res <- doFetch {| url := DA_ADMIN_API ++ endpoint;
                    method := opt_method options;
                    headers := defaultHeaders;
                    body := opt_body options |} ;;
  if negb (ok res) then
    let m := Js.lit "DA Admin API error " ++ Js.ofN (status res)
             ++ Js.lit ": " ++ text res in
    warning m ;; throw m
  else if status res =? 204 then ret VNull
  else if match contentType res with
          | Some ct => Js.includes ct (Js.lit "application/json")
          | None => false
          end
  then match json res with
       | Some v => ret v
       | None => throw (msgSyntaxError env)
       end
  else ret (VText (text res)).

Definition listSources (token org repo path : Js.str) : M (list Source) :=
  emit (Enter (OpList org repo path)) ;;
  let endpoint := Js.lit "/list/" ++ org ++ [47] ++ repo ++ [47] ++ path in
  data <- daFetch token endpoint noOptions ;;
  match data with
  | VArray items => ret items
  | VNull => throw (msgNullProperty env (Js.lit "sources"))
  | VObject (Some items) => ret items
  | VObject None => ret []
  | VText _ => ret []
  end.

Definition createBackupFolder (token org repo parentPath : Js.str) : M Backup :=
  emit (Enter (OpCreateFolder org repo parentPath)) ;;
  t <- clock ;;
  let timestamp := Date.timestamp t in
  let backupName := Js.lit "backup-" ++ timestamp in
  let backupPath :=
    if Js.truthy parentPath then parentPath ++ [47] ++ backupName
    else backupName in
  let endpoint := Js.lit "/source/" ++ org ++ [47] ++ repo ++ [47] ++ backupPath in
  daFetch token endpoint {| opt_method := Some POST; opt_body := None |} ;;
  info (Js.lit "Created backup folder: " ++ backupName) ;;
  ret {| backupName := backupName; backupPath := backupPath |}.

Definition moveSource (token sourcePath destPath : Js.str) : M unit :=
  emit (Enter (OpMove sourcePath destPath)) ;;
  match Uri.encodeSourcePath sourcePath with
  | None => throw (msgURIError env)
  | Some encodedSourcePath =>
      let endpoint := Js.lit "/move" ++ encodedSourcePath in
      let formData := [(Js.lit "destination", WebIdl.toUSVString destPath)] in
      daFetch token endpoint
        {| opt_method := Some POST; opt_body := Some formData |} ;;
      ret tt
  end.

(** The body of the [for] loop of [run] for one source; the result is the
    new value of [movedCount]. *)
Definition moveStep (token org repo : Js.str) (backup : Backup)
    (source : Source) (movedCount : nat) : M nat :=
  if isReserved source then
    info (Js.lit "Skipping reserved item: " ++ toStr (name source)) ;;
    ret movedCount
  else if missingRequired source then
    warning (Js.lit "Source missing required properties: "
             ++ stringify env source) ;;
    ret movedCount
  else
    tryCatch
      (let dest := destPath org repo backup source in
       moveSource token (toStr (path source)) dest ;;
       info (Js.lit "Moved " ++ toStr (path source) ++ Js.lit " to " ++ dest) ;;
       ret (S movedCount))
      (fun err =>
         warning (Js.lit "Failed to move " ++ toStr (path source)
                  ++ Js.lit " to " ++ backupName backup ++ Js.lit ": " ++ err) ;;
         ret movedCount).

(** [for (const source of sources) { ... }] *)
Fixpoint moveLoop (token org repo : Js.str) (backup : Backup)
    (sources : list Source) (movedCount : nat) : M nat :=
  match sources with
  | [] => ret movedCount
  | source :: rest =>
      c <- moveStep token org repo backup source movedCount ;;
      moveLoop token org repo backup rest c
  end.

(** [sources.forEach((source, index) => core.info(...))] *)
Fixpoint logSources (index : nat) (sources : list Source) : M unit :=
  match sources with
  | [] => ret tt
  | source :: rest =>
      info (Js.lit "  " ++ Js.ofNat (index + 1) ++ Js.lit ". "
            ++ stringify env source) ;;
      logSources (S index) rest
  end.

(** The [try] block of [run]. *)
Definition runBody (inputs : Inputs) : M unit :=
  let org := Js.trim (in_org inputs) in
  let repo := Js.trim (in_repo inputs) in
  let path := Js.trim (in_path inputs) in
  if negb (Js.truthy org) || negb (Js.truthy repo) then
    throw (Js.lit "Both org and repo inputs are required")
  else
    info (Js.lit "Starting DA backup for org: " ++ org ++ Js.lit ", repo: " ++ repo
          ++ (if Js.truthy path then Js.lit ", path: " ++ path else [])) ;;
    token <- requestToken ;;
    if negb (Js.truthy_opt token) then
      throw (Js.lit "No access token available. Please configure DA_CLIENT_ID, DA_CLIENT_SECRET, DA_SERVICE_TOKEN or IMS_TOKEN secrets.")
    else
      let token := toStr token in
      sources <- listSources token org repo path ;;
      info (Js.lit "Found " ++ Js.ofNat (List.length sources)
            ++ Js.lit " sources to process") ;;
      info (Js.lit "Sources found:") ;;
      logSources 0 sources ;;
      match sources with
      | [] =>
          info (Js.lit "No sources found to backup") ;;
          setOutput (Js.lit "backup_folder_name") (Js.lit "no-backup-needed")
      | _ :: _ =>
          backup <- createBackupFolder token org repo path ;;
          movedCount <- moveLoop token org repo backup sources 0 ;;
          info (Js.lit "Backup completed. Moved " ++ Js.ofNat movedCount
                ++ Js.lit " items to " ++ backupName backup) ;;
          setOutput (Js.lit "backup_folder_name") (backupName backup)
      end.

Definition failureMark : Js.str := [10060] ++ Js.lit " DA backup failed: ".

Definition run (inputs : Inputs) : M unit :=
  tryCatch (runBody inputs)
    (fun message =>
       error (Js.lit "DA backup failed: " ++ message) ;;
       setOutput (Js.lit "error_message") (failureMark ++ message) ;;
       setFailed message).

End Action.

Arguments Out {World A}.
Arguments result {World A}.
Arguments after {World A}.
Arguments events {World A}.

End Run.

(** ** Reading a trace *)

(** The arguments of the move operations entered, in order. *)
Fixpoint moveCalls (evs : list Event) : list (Js.str * Js.str) :=
  match evs with
  | [] => []
  | Enter (OpMove sourcePath dest) :: rest => (sourcePath, dest) :: moveCalls rest
  | _ :: rest => moveCalls rest
  end.

(** The number of folder creations entered. *)
Fixpoint folderCalls (evs : list Event) : nat :=
  match evs with
  | [] => 0
  | Enter (OpCreateFolder _ _ _) :: rest => S (folderCalls rest)
  | _ :: rest => folderCalls rest
  end.

(** The HTTP requests issued, in order. *)
Fixpoint fetches (evs : list Event) : list Request :=
  match evs with
  | [] => []
  | Fetch req :: rest => req :: fetches rest
  | _ :: rest => fetches rest
  end.

(** The outputs set, in order. *)
Fixpoint outputs (evs : list Event) : list (Js.str * Js.str) :=
  match evs with
  | [] => []
  | SetOutput key value :: rest => (key, value) :: outputs rest
  | _ :: rest => outputs rest
  end.

(** The messages with which the run was marked failed. *)
Fixpoint failures (evs : list Event) : list Js.str :=
  match evs with
  | [] => []
  | SetFailed m :: rest => m :: failures rest
  | _ :: rest => failures rest
  end.

(** The events of a call that only talks to the transport and the logs:
    no move or folder creation is entered, nothing is output, the run is not
    failed. *)
Definition quiet (evs : list Event) : Prop :=
  moveCalls evs = [] /\ folderCalls evs = 0%nat /\ outputs evs = []
  /\ failures evs = [].

(** The request [daFetch] builds from its arguments. *)
Definition requestOf (token endpoint : Js.str) (options : Options) : Request :=
  {| url := DA_ADMIN_API ++ endpoint;
     method := opt_method options;
     headers :=
       [(Js.lit "Authorization", Js.lit "Bearer " ++ token);
        (Js.lit "Accept", Js.lit "application/json")]
       ++ match opt_body options with
          | Some _ => []
          | None => [(Js.lit "Content-Type", Js.lit "application/json")]
          end;
     body := opt_body options |}.

(** The log lines of [run] that frame the three steps. *)
Definition startInfo (inputs : Inputs) : Event :=
  let path := Js.trim (in_path inputs) in
  Info (Js.lit "Starting DA backup for org: " ++ Js.trim (in_org inputs)
        ++ Js.lit ", repo: " ++ Js.trim (in_repo inputs)
        ++ (if Js.truthy path then Js.lit ", path: " ++ path else [])).

Definition foundInfo (sources : list Source) : Event :=
  Info (Js.lit "Found " ++ Js.ofNat (List.length sources)
        ++ Js.lit " sources to process").

Definition completedInfo (movedCount : nat) (backup : Backup) : Event :=
  Info (Js.lit "Backup completed. Moved " ++ Js.ofNat movedCount
        ++ Js.lit " items to " ++ backupName backup).

(** The endpoint of the list operation. *)
Definition listEndpoint (org repo path : Js.str) : Js.str :=
  Js.lit "/list/" ++ org ++ [47] ++ repo ++ [47] ++ path.

(** The endpoint and the options of the folder creation. *)
Definition folderEndpoint (org repo backupPath : Js.str) : Js.str :=
  Js.lit "/source/" ++ org ++ [47] ++ repo ++ [47] ++ backupPath.

Definition folderOptions : Options :=
  {| opt_method := Some POST; opt_body := None |}.

(** The options [moveSource] passes to [daFetch] for a destination: the
    form has the one field [destination], whose value [append] has made a
    [USVString]. *)
Definition moveOptions (dest : Js.str) : Options :=
  {| opt_method := Some POST;
     opt_body := Some [(Js.lit "destination", WebIdl.toUSVString dest)] |}.

(** A source that reaches the [try] block of the loop. *)
Definition eligible (source : Source) : bool :=
  negb (isReserved source) && negb (missingRequired source).

(** A source the loop skips with the warning: not reserved, and [path] or
    [name] is missing. *)
Definition skippedAsMalformed (source : Source) : bool :=
  negb (isReserved source) && missingRequired source.

(** The arguments [moveSource] gets for a source. *)
Definition moveArgs (org repo : Js.str) (backup : Backup) (source : Source)
  : Js.str * Js.str :=
  (toStr (path source), destPath org repo backup source).

(** The request of the move of a source, when its path can be encoded. *)
Definition moveRequests (token org repo : Js.str) (backup : Backup)
    (source : Source) : list Request :=
  match Uri.encodeSourcePath (toStr (path source)) with
  | Some encoded =>
      [requestOf token (Js.lit "/move" ++ encoded)
         (moveOptions (destPath org repo backup source))]
  | None => []
  end.

(** A malformed record in the words of the specification: the item lacks
    both [path] and [name]. *)
Definition lacksBoth (source : Source) : bool :=
  negb (Js.truthy_opt (path source)) && negb (Js.truthy_opt (name source)).

(** The moves of a listing that complete without an error, the world being
    threaded through the loop as [moveLoop] does. *)
Fixpoint successfulMoves {World} (env : Env World) (token org repo : Js.str)
    (backup : Backup) (sources : list Source) (w : World) : nat :=
  match sources with
  | [] => 0
  | source :: rest =>
      let w' := Run.after (Run.moveStep env token org repo backup source 0 w) in
      let here :=
        if eligible source then
          match Run.result (Run.moveSource env token (toStr (path source))
                              (destPath org repo backup source) w) with
          | Normal _ => 1%nat
          | Throw _ => 0%nat
          end
        else 0%nat in
      (here + successfulMoves env token org repo backup rest w')%nat
  end.

(** ** A scripted environment

    The world is the queue of answers the transport will give; once it is
    used up every request is answered with [204 No Content]. *)

Module Sample.

Definition World := list (Completion Response).

Definition noContent : Response :=
  {| status := 204; contentType := None; text := []; json := None |}.

Definition created : Response :=
  {| status := 201; contentType := Some (Js.lit "text/plain"); text := [];
     json := None |}.

Definition listing (items : list Source) : Response :=
  {| status := 200; contentType := Some (Js.lit "application/json");
     text := []; json := Some (VArray items) |}.

Definition serverError : Response :=
  {| status := 500; contentType := Some (Js.lit "text/plain");
     text := Js.lit "boom"; json := None |}.

Definition time : Date.utc :=
  {| Date.year := 2025; Date.month := 3; Date.day := 9; Date.hours := 14;
     Date.minutes := 5; Date.seconds := 7; Date.milliseconds := 42 |}.

Definition env : Env World :=
  {| fetch := fun _ w =>
       match w with
       | r :: w' => (r, w')
       | [] => (Normal noContent, [])
       end;
     now := fun _ => time;
     getAccessTokenWithFallback := fun w => (Normal (Some (Js.lit "tok")), w);
     stringify := fun _ => Js.lit "{}";
     msgNullProperty := fun p =>
       Js.lit "Cannot read properties of null (reading '" ++ p ++ Js.lit "')";
     msgURIError := Js.lit "URI malformed";
     msgSyntaxError := Js.lit "Unexpected token" |}.

Definition inputs : Inputs :=
  {| in_org := Js.lit " o "; in_repo := Js.lit "r"; in_path := [] |}.

Definition tools : Source :=
  {| name := Some (Js.lit "tools"); path := None; ext := None |}.

Definition index : Source :=
  {| name := Some (Js.lit "index"); path := Some (Js.lit "/o/r/index");
     ext := Some (Js.lit "html") |}.

(** A source with a name and no path. *)
Definition nameOnly : Source :=
  {| name := Some (Js.lit "draft"); path := None; ext := None |}.

Definition about : Source :=
  {| name := Some (Js.lit "about"); path := Some (Js.lit "/o/r/about");
     ext := None |}.

Definition backup : Backup :=
  {| backupName := Js.lit "backup-2025-03-09T14-05-07";
     backupPath := Js.lit "backup-2025-03-09T14-05-07" |}.

Definition token : Js.str := Js.lit "tok".
Definition org : Js.str := Js.lit "o".
Definition repo : Js.str := Js.lit "r".

(** Inputs whose org is only white space. *)
Definition blankOrg : Inputs :=
  {| in_org := Js.lit "  "; in_repo := Js.lit "r"; in_path := [] |}.

(** The listing is answered and the folder is created; the moves get
    [204]. *)
Definition served (items : list Source) : World :=
  [Normal (listing items); Normal created].

(** As [served], but the first move is refused. *)
Definition firstMoveRefused (items : list Source) : World :=
  [Normal (listing items); Normal created; Normal serverError].

(** The listing is answered and the folder creation is refused. *)
Definition folderRefused (items : list Source) : World :=
  [Normal (listing items); Normal serverError].

End Sample.

(** ** Vocabulary for the further properties *)

Module Wf.

(** [String.prototype.isWellFormed]: no surrogate stands alone. *)
Fixpoint isWellFormed (s : Js.str) : bool :=
  match s with
  | [] => true
  | c :: r =>
      if Uri.isTrail c then false
      else if Uri.isLead c then
        match r with
        | d :: r' => Uri.isTrail d && isWellFormed r'
        | [] => false
        end
      else isWellFormed r
  end.

(** A character [encodeSourcePath] leaves as it is. *)
Definition plain (c : N) : bool := Uri.unescaped c || (c =? 47).

(** An upper-case hexadecimal digit: [0-9A-F]. *)
Definition isUpperHex (c : N) : bool :=
  ((48 <=? c) && (c <=? 57)) || ((65 <=? c) && (c <=? 70)).

(** A string made of unreserved characters, [/] and percent escapes, every
    [%] being followed by two upper-case hexadecimal digits. *)
Fixpoint wellEscaped (s : Js.str) : bool :=
  match s with
  | [] => true
  | c :: r =>
      if c =? 37 then
        match r with
        | h1 :: h2 :: r' => isUpperHex h1 && isUpperHex h2 && wellEscaped r'
        | _ => false
        end
      else plain c && wellEscaped r
  end.

End Wf.

(** The message of the error [run] throws when no token is there. *)
Definition noTokenMessage : Js.str :=
  Js.lit "No access token available. Please configure DA_CLIENT_ID, DA_CLIENT_SECRET, DA_SERVICE_TOKEN or IMS_TOKEN secrets.".

(** The message [daFetch] logs and throws for a response that is not ok. *)
Definition apiError (res : Response) : Js.str :=
  Js.lit "DA Admin API error " ++ Js.ofN (status res) ++ Js.lit ": " ++ text res.

(** [contentType?.includes('application/json')] *)
Definition saysJson (res : Response) : bool :=
  match contentType res with
  | Some ct => Js.includes ct (Js.lit "application/json")
  | None => false
  end.

(** What the [catch] block of [run] adds to the trace for an error. *)
Definition failureTrace (m : Js.str) : list Event :=
  [Error (Js.lit "DA backup failed: " ++ m);
   SetOutput (Js.lit "error_message") (Run.failureMark ++ m);
   SetFailed m].

(** The name and the path [createBackupFolder] computes at a time. *)
Definition folderNameAt (t : Date.utc) : Js.str :=
  Js.lit "backup-" ++ Date.timestamp t.

Definition folderPathAt (t : Date.utc) (parentPath : Js.str) : Js.str :=
  if Js.truthy parentPath then parentPath ++ [47] ++ folderNameAt t
  else folderNameAt t.

(** Neither [:] nor [.]. *)
Definition noColonPeriod (c : N) : bool := negb ((c =? 58) || (c =? 46)).

(** The warning of the loop for a move that failed. *)
Definition moveFailedWarning (backup : Backup) (source : Source)
    (message : Js.str) : Event :=
  Warning (Js.lit "Failed to move " ++ toStr (path source) ++ Js.lit " to "
           ++ backupName backup ++ Js.lit ": " ++ message).

(** The [error_message] output for an error. *)
Definition errorOutput (m : Js.str) : Js.str * Js.str :=
  (Js.lit "error_message", Run.failureMark ++ m).

(** The requests of the listing and of the folder creation. *)
Definition listRequest (token org repo path : Js.str) : Request :=
  requestOf token (listEndpoint org repo path) Run.noOptions.

Definition folderRequest (token org repo backupPath : Js.str) : Request :=
  requestOf token (folderEndpoint org repo backupPath) folderOptions.

(** A request of [moveSource]: a [POST] to [/move...] whose form has the
    one field [destination]. *)
Definition isMoveRequest (token : Js.str) (req : Request) : Prop :=
  exists encoded dest,
    req = requestOf token (Js.lit "/move" ++ encoded) (moveOptions dest).

(** A string [trimStart] leaves alone. *)
Definition noLeadingSpace (s : Js.str) : Prop :=
  match s with [] => True | c :: _ => Js.isSpace c = false end.

(** ** More scripted environments *)

Module Sample2.

(** As [Sample.env], with the credential helper completing as given. *)
Definition envWithToken (r : Completion (option Js.str)) : Env Sample.World :=
  {| fetch := fetch Sample.env;
     now := now Sample.env;
     getAccessTokenWithFallback := fun w => (r, w);
     stringify := stringify Sample.env;
     msgNullProperty := msgNullProperty Sample.env;
     msgURIError := msgURIError Sample.env;
     msgSyntaxError := msgSyntaxError Sample.env |}.

(** As [Sample.env], with every request answered [204]. *)
Definition always204 : Env Sample.World :=
  {| fetch := fun _ w => (Normal Sample.noContent, w);
     now := now Sample.env;
     getAccessTokenWithFallback := getAccessTokenWithFallback Sample.env;
     stringify := stringify Sample.env;
     msgNullProperty := msgNullProperty Sample.env;
     msgURIError := msgURIError Sample.env;
     msgSyntaxError := msgSyntaxError Sample.env |}.

Definition farFuture : Date.utc :=
  {| Date.year := 12025; Date.month := 3; Date.day := 9; Date.hours := 14;
     Date.minutes := 5; Date.seconds := 7; Date.milliseconds := 42 |}.

(** As [Sample.env], with the clock in the year 12025. *)
Definition envFarFuture : Env Sample.World :=
  {| fetch := fetch Sample.env;
     now := fun _ => farFuture;
     getAccessTokenWithFallback := getAccessTokenWithFallback Sample.env;
     stringify := stringify Sample.env;
     msgNullProperty := msgNullProperty Sample.env;
     msgURIError := msgURIError Sample.env;
     msgSyntaxError := msgSyntaxError Sample.env |}.

Definition farBackup : Backup :=
  {| backupName := Js.lit "backup-+012025-03-09T14-05";
     backupPath := Js.lit "backup-+012025-03-09T14-05" |}.

(** A source whose path ends with a lead surrogate. *)
Definition broken : Source :=
  {| name := Some (Js.lit "broken");
     path := Some (Js.lit "/o/r/broken" ++ [55357]);
     ext := None |}.

(** A source whose name ends with a lead surrogate. *)
Definition oddName : Source :=
  {| name := Some (Js.lit "a" ++ [55357]);
     path := Some (Js.lit "/o/r/a");
     ext := None |}.

(** A listing wrapped in an object, and an HTML page. *)
Definition wrapped (items : list Source) : Response :=
  {| status := 200; contentType := Some (Js.lit "application/json; charset=utf-8");
     text := []; json := Some (VObject (Some items)) |}.

Definition page : Response :=
  {| status := 200; contentType := Some (Js.lit "text/html");
     text := Js.lit "<html></html>"; json := None |}.

End Sample2.

(* ================================================================= *)
(** * Properties *)

(** ** URL encoding of the source path *)

Module UriFacts.
Import Uri.

Lemma pair_ind (P : Js.str -> Prop) :
  P [] -> (forall a, P [a]) ->
  (forall a b l, P l -> P (b :: l) -> P (a :: b :: l)) ->
  forall l, P l.
Proof.
  intros H0 H1 H2 l.
  assert (H : P l /\ forall a, P (a :: l)).
  { induction l as [|b l [IH1 IH2]]; split; auto. }
  apply H.
Qed.

Lemma hexDigit_not_pct d : hexDigit d <> 37.
Proof. unfold hexDigit. destruct (d <? 10); lia. Qed.

Lemma hexDigit_2 d : hexDigit d = 50 -> d = 2.
Proof. unfold hexDigit. destruct (N.ltb_spec d 10); lia. Qed.

Lemma hexDigit_F d : hexDigit d = 70 -> d = 15.
Proof. unfold hexDigit. destruct (N.ltb_spec d 10); lia. Qed.

Lemma replace_cons a tl :
  a <> 37 -> replace_pct2F (a :: tl) = a :: replace_pct2F tl.
Proof.
  intros Ha. destruct tl as [|b [|c rest]]; try reflexivity.
  cbn [replace_pct2F]. apply N.eqb_neq in Ha. rewrite Ha. reflexivity.
Qed.

(** An escape other than [%2F] is left alone by the replacement. *)
Lemma replace_pct b x :
  b <> 47 -> replace_pct2F (pct b ++ x) = pct b ++ replace_pct2F x.
Proof.
  intros Hb. unfold pct. cbn [app].
  assert (E : (hexDigit (b / 16) =? 50) && (hexDigit (b mod 16) =? 70) = false).
  { apply andb_false_iff.
    destruct (N.eqb_spec (hexDigit (b / 16)) 50) as [E1|]; [|now left].
    destruct (N.eqb_spec (hexDigit (b mod 16)) 70) as [E2|]; [|now right].
    apply hexDigit_2 in E1. apply hexDigit_F in E2.
    exfalso. apply Hb.
    rewrite (N.div_mod b 16) by lia. rewrite E1, E2. reflexivity. }
  change (replace_pct2F (37 :: hexDigit (b / 16) :: hexDigit (b mod 16) :: x))
    with (if (37 =? 37) && (hexDigit (b / 16) =? 50) && (hexDigit (b mod 16) =? 70)
          then 47 :: replace_pct2F x
          else 37 :: replace_pct2F (hexDigit (b / 16) :: hexDigit (b mod 16) :: x)).
  rewrite N.eqb_refl. cbn [andb]. rewrite E.
  rewrite !replace_cons by apply hexDigit_not_pct. reflexivity.
Qed.

Lemma replace_pct_slash x :
  replace_pct2F (pct 47 ++ x) = 47 :: replace_pct2F x.
Proof. reflexivity. Qed.

Lemma replace_pctAll bs x :
  Forall (fun b => b <> 47) bs ->
  replace_pct2F (pctAll bs ++ x) = pctAll bs ++ replace_pct2F x.
Proof.
  induction 1 as [|b bs Hb _ IH]; [reflexivity|].
  unfold pctAll in *. cbn [flat_map]. rewrite <- !app_assoc.
  rewrite replace_pct by assumption. now rewrite IH.
Qed.

Lemma lor_high_bit m x : N.testbit m 7 = true -> N.lor m x <> 47.
Proof.
  intros Hm H. apply (f_equal (fun n => N.testbit n 7)) in H.
  rewrite N.lor_spec, Hm in H. discriminate H.
Qed.

(** Only the code point of [/] itself has the octet [0x2F] in its UTF-8
    form. *)
Lemma utf8_no_slash cp : cp <> 47 -> Forall (fun b => b <> 47) (utf8 cp).
Proof.
  intros Hcp. unfold utf8.
  destruct (cp <? 128); [|destruct (cp <? 2048); [|destruct (cp <? 65536)]];
    repeat constructor; solve [assumption | now apply lor_high_bit].
Qed.

Lemma pairToCodePoint_not_slash a b : pairToCodePoint a b <> 47.
Proof. unfold pairToCodePoint. lia. Qed.

Lemma split_not_nil s : Js.split_slash s <> [].
Proof.
  destruct s as [|c r]; cbn; [discriminate|].
  destruct (c =? 47); [discriminate|].
  destruct (Js.split_slash r); discriminate.
Qed.

Lemma split_chunk pre r :
  Forall (fun c => c <> 47) pre ->
  exists seg segs,
    Js.split_slash r = seg :: segs /\
    Js.split_slash (pre ++ r) = (pre ++ seg) :: segs.
Proof.
  induction 1 as [|c pre Hc _ IH].
  - cbn [app]. destruct (Js.split_slash r) as [|seg segs] eqn:E.
    + now apply split_not_nil in E.
    + now exists seg, segs.
  - destruct IH as (seg & segs & E1 & E2). exists seg, segs. split; [exact E1|].
    cbn. apply N.eqb_neq in Hc. now rewrite Hc, E2.
Qed.

Lemma join_cons_app E e es :
  Js.join [47] ((E ++ e) :: es) = E ++ Js.join [47] (e :: es).
Proof. destruct es; cbn; [reflexivity|]. now rewrite <- app_assoc. Qed.

(** A run of code units without [/] that encodes to [E] in front of any
    rest does so inside its segment. *)
Lemma bySegment_chunk pre E r :
  Forall (fun c => c <> 47) pre ->
  (forall t, encodeURIComponent (pre ++ t)
             = option_map (app E) (encodeURIComponent t)) ->
  encodeBySegment (pre ++ r) = option_map (app E) (encodeBySegment r).
Proof.
  intros Hpre Henc. unfold encodeBySegment.
  destruct (split_chunk pre r Hpre) as (seg & segs & E1 & E2).
  rewrite E1, E2. cbn [encodeAll]. rewrite Henc.
  destruct (encodeURIComponent seg) as [e|]; cbn [option_map]; [|reflexivity].
  destruct (encodeAll segs) as [es|]; cbn [option_map]; [|reflexivity].
  now rewrite join_cons_app.
Qed.

Lemma bySegment_chunk_fails pre r :
  Forall (fun c => c <> 47) pre ->
  (forall t, encodeURIComponent (pre ++ t) = None) ->
  encodeBySegment (pre ++ r) = None.
Proof.
  intros Hpre Henc. unfold encodeBySegment.
  destruct (split_chunk pre r Hpre) as (seg & segs & E1 & E2).
  rewrite E2. cbn [encodeAll]. now rewrite Henc.
Qed.

Lemma bySegment_slash r :
  encodeBySegment (47 :: r) = option_map (cons 47) (encodeBySegment r).
Proof.
  unfold encodeBySegment. cbn.
  destruct (Js.split_slash r) as [|seg segs] eqn:E.
  - now apply split_not_nil in E.
  - destruct (encodeAll (seg :: segs)) as [[|e es]|] eqn:E'; cbn; try reflexivity.
    cbn in E'. destruct (encodeURIComponent seg); [|discriminate].
    destruct (encodeAll segs); discriminate.
Qed.

Lemma sourcePath_chunk pre E r :
  (forall t, encodeURIComponent (pre ++ t)
             = option_map (app E) (encodeURIComponent t)) ->
  (forall x, replace_pct2F (E ++ x) = E ++ replace_pct2F x) ->
  encodeSourcePath (pre ++ r) = option_map (app E) (encodeSourcePath r).
Proof.
  intros Henc Hrep. unfold encodeSourcePath. rewrite Henc.
  destruct (encodeURIComponent r); cbn; [|reflexivity]. now rewrite Hrep.
Qed.

Lemma sourcePath_slash r :
  encodeSourcePath (47 :: r) = option_map (cons 47) (encodeSourcePath r).
Proof.
  unfold encodeSourcePath. cbn [encodeURIComponent].
  change (unescaped 47) with false. change (isTrail 47) with false.
  change (isLead 47) with false. cbv iota.
  destruct (encodeURIComponent r); reflexivity.
Qed.

Lemma unescaped_not_slash c : unescaped c = true -> c <> 47.
Proof. intros H ->. discriminate H. Qed.

Lemma unescaped_not_pct c : unescaped c = true -> c <> 37.
Proof. intros H ->. discriminate H. Qed.

Lemma isTrail_not_slash c : isTrail c = true -> c <> 47.
Proof. intros H ->. discriminate H. Qed.

Lemma isLead_not_slash c : isLead c = true -> c <> 47.
Proof. intros H ->. discriminate H. Qed.

(** One step of the scan: the two encodings agree on [a :: r] as soon as
    they agree on [r] and on what follows a surrogate pair. *)
Lemma encode_step a r :
  encodeSourcePath r = encodeBySegment r ->
  (forall b l, r = b :: l -> encodeSourcePath l = encodeBySegment l) ->
  encodeSourcePath (a :: r) = encodeBySegment (a :: r).
Proof.
  intros IHr IHl.
  destruct (N.eq_dec a 47) as [->|Ha].
  { now rewrite sourcePath_slash, bySegment_slash, IHr. }
  destruct (unescaped a) eqn:Hu.
  { change (a :: r) with ([a] ++ r).
    rewrite (sourcePath_chunk [a] [a]), (bySegment_chunk [a] [a]).
    - now rewrite IHr.
    - now repeat constructor.
    - intros t. cbn. now rewrite Hu.
    - intros t. cbn. now rewrite Hu.
    - intros x. apply replace_cons. now apply unescaped_not_pct. }
  destruct (isTrail a) eqn:Ht.
  { change (a :: r) with ([a] ++ r).
    rewrite (bySegment_chunk_fails [a]).
    - unfold encodeSourcePath. cbn. now rewrite Hu, Ht.
    - now repeat constructor.
    - intros t. cbn. now rewrite Hu, Ht. }
  destruct (isLead a) eqn:Hl.
  - destruct r as [|b l].
    { unfold encodeSourcePath, encodeBySegment. cbn.
      apply N.eqb_neq in Ha. now rewrite Ha; cbn; rewrite Hu, Ht, Hl. }
    destruct (isTrail b) eqn:Hb.
    + change (a :: b :: l) with ([a; b] ++ l).
      rewrite (sourcePath_chunk [a; b] (pctAll (utf8 (pairToCodePoint a b)))),
        (bySegment_chunk [a; b] (pctAll (utf8 (pairToCodePoint a b)))).
      * now rewrite (IHl b l eq_refl).
      * repeat constructor; [assumption | now apply isTrail_not_slash].
      * intros t. cbn. now rewrite Hu, Ht, Hl, Hb.
      * intros t. cbn. now rewrite Hu, Ht, Hl, Hb.
      * intros x. apply replace_pctAll, utf8_no_slash, pairToCodePoint_not_slash.
    + assert (L : encodeSourcePath (a :: b :: l) = None).
      { unfold encodeSourcePath. cbn. now rewrite Hu, Ht, Hl, Hb. }
      rewrite L. symmetry.
      destruct (N.eq_dec b 47) as [->|Hb47].
      * unfold encodeBySegment. cbn. apply N.eqb_neq in Ha. rewrite Ha.
        cbn. now rewrite Hu, Ht, Hl.
      * change (a :: b :: l) with ([a; b] ++ l).
        apply bySegment_chunk_fails; [now repeat constructor|].
        intros t. cbn. now rewrite Hu, Ht, Hl, Hb.
  - change (a :: r) with ([a] ++ r).
    rewrite (sourcePath_chunk [a] (pctAll (utf8 a))),
      (bySegment_chunk [a] (pctAll (utf8 a))).
    + now rewrite IHr.
    + now repeat constructor.
    + intros t. cbn. now rewrite Hu, Ht, Hl.
    + intros t. cbn. now rewrite Hu, Ht, Hl.
    + intros x. now apply replace_pctAll, utf8_no_slash.
Qed.

(** C9.  For every source path, encoding the whole string with
    [encodeURIComponent] and then turning every [%2F] back into [/] (what
    [moveSource] does) gives the same result as encoding each [/]-separated
    segment on its own and joining the results with [/]; both raise the
    [URIError] on the same inputs. *)
Theorem encodeSourcePath_by_segment (sourcePath : Js.str) :
  encodeSourcePath sourcePath = encodeBySegment sourcePath.
Proof.
  induction sourcePath as [| |a b l IHl IHbl] using pair_ind.
  - reflexivity.
  - apply encode_step; [reflexivity | discriminate].
  - apply encode_step; [exact IHbl|].
    intros b' l' E. now injection E as -> ->.
Qed.

End UriFacts.

Example encode_sample :
  Uri.encodeSourcePath (Js.lit "/o/r/a b%2F.html") = Some (Js.lit "/o/r/a%20b%252F.html").
Proof. reflexivity. Qed.

Example encode_sample_seg :
  Uri.encodeBySegment (Js.lit "/o/r/a b%2F.html") = Some (Js.lit "/o/r/a%20b%252F.html").
Proof. reflexivity. Qed.

(** ** The timestamp *)

Module DateFacts.
Import Date.

Lemma digit_kept d :
  (if (digit d =? 58) || (digit d =? 46) then 45 else digit d) = digit d.
Proof.
  unfold digit. assert (H : d mod 10 < 10) by (apply N.mod_lt; lia).
  generalize dependent (d mod 10). intros x H.
  destruct (N.eqb_spec (48 + x) 58); [lia|].
  destruct (N.eqb_spec (48 + x) 46); [lia|]. reflexivity.
Qed.

(** For a four-digit year the first 19 characters of the ISO string are
    the date and the time of day to the second. *)
Lemma timestamp_second t :
  (0 <= year t <= 9999)%Z -> timestamp t = secondStamp t.
Proof.
  intros Hy. unfold timestamp, secondStamp, toISOString, yearString.
  replace ((0 <=? year t)%Z && (year t <=? 9999)%Z) with true
    by (symmetry; apply andb_true_iff; split; apply Z.leb_le; lia).
  unfold pad4, pad3, pad2, Js.slice0, replace_colon_period.
  cbn [app map firstn]. rewrite !digit_kept. reflexivity.
Qed.

Lemma secondStamp_length t : List.length (secondStamp t) = 19%nat.
Proof. reflexivity. Qed.

End DateFacts.

(** ** Strings without lone surrogates *)

Module WfFacts.
Import Uri Wf.

Lemma unescaped_small c : unescaped c = true -> c <= 126.
Proof.
  unfold unescaped, isAlnum. intros H.
  repeat (apply orb_true_iff in H; destruct H as [H|H]);
    try (apply andb_true_iff in H; destruct H as [_ H]; apply N.leb_le in H);
    try (apply N.eqb_eq in H); lia.
Qed.

Lemma unescaped_not_surrogate c :
  unescaped c = true -> isLead c = false /\ isTrail c = false.
Proof.
  intros H. apply unescaped_small in H. unfold isLead, isTrail.
  split; apply andb_false_iff; left; apply N.leb_gt; lia.
Qed.

Lemma isWellFormed_cons a r :
  isWellFormed (a :: r)
  = if isTrail a then false
    else if isLead a then
      match r with
      | d :: r' => isTrail d && isWellFormed r'
      | [] => false
      end
    else isWellFormed r.
Proof. reflexivity. Qed.

Lemma encodeURIComponent_cons c r :
  encodeURIComponent (c :: r)
  = if unescaped c then option_map (cons c) (encodeURIComponent r)
    else if isTrail c then None
    else if isLead c then
      match r with
      | d :: r' =>
          if isTrail d
          then option_map (app (pctAll (utf8 (pairToCodePoint c d))))
                          (encodeURIComponent r')
          else None
      | [] => None
      end
    else option_map (app (pctAll (utf8 c))) (encodeURIComponent r).
Proof. reflexivity. Qed.

Lemma encode_defined_iff_wellFormed s :
  isWellFormed s
  = match encodeURIComponent s with Some _ => true | None => false end.
Proof.
  induction s as [|a|a b l IHl IHbl] using UriFacts.pair_ind.
  - reflexivity.
  - cbn. destruct (unescaped a) eqn:Hu.
    + destruct (unescaped_not_surrogate a Hu) as [-> ->]. reflexivity.
    + destruct (isTrail a); [reflexivity|]. now destruct (isLead a).
  - rewrite (isWellFormed_cons a), (encodeURIComponent_cons a).
    destruct (unescaped a) eqn:Hu.
    + destruct (unescaped_not_surrogate a Hu) as [-> ->].
      rewrite IHbl. now destruct (encodeURIComponent (b :: l)).
    + destruct (isTrail a); [reflexivity|].
      destruct (isLead a).
      * destruct (isTrail b); [|reflexivity]. cbn [andb].
        rewrite IHl. now destruct (encodeURIComponent l).
      * rewrite IHbl. now destruct (encodeURIComponent (b :: l)).
Qed.

End WfFacts.

Module WebIdlFacts.
Import Uri Wf WebIdl.

(** The conversion leaves a well-formed string as it is. *)
Lemma toUSVString_wellFormed (s : Js.str) :
  isWellFormed s = true -> toUSVString s = s.
Proof.
  induction s as [|a|a b l IHl IHbl] using UriFacts.pair_ind.
  - reflexivity.
  - cbn. destruct (isTrail a); [discriminate|].
    destruct (isLead a); [discriminate | reflexivity].
  - change (isWellFormed (a :: b :: l))
      with (if isTrail a then false
            else if isLead a then isTrail b && isWellFormed l
            else isWellFormed (b :: l)).
    change (toUSVString (a :: b :: l))
      with (if isTrail a then 65533 :: toUSVString (b :: l)
            else if isLead a then
              if isTrail b then a :: b :: toUSVString l
              else 65533 :: toUSVString (b :: l)
            else a :: toUSVString (b :: l)).
    destruct (isTrail a); [discriminate|].
    destruct (isLead a).
    + destruct (isTrail b); [|discriminate]. cbn [andb].
      intros H. now rewrite (IHl H).
    + intros H. now rewrite (IHbl H).
Qed.

(** The result of the conversion is well-formed. *)
Lemma toUSVString_isWellFormed (s : Js.str) :
  isWellFormed (toUSVString s) = true.
Proof.
  induction s as [|a|a b l IHl IHbl] using UriFacts.pair_ind.
  - reflexivity.
  - cbn. destruct (isTrail a) eqn:Ht; [reflexivity|].
    destruct (isLead a) eqn:Hl; [reflexivity|]. cbn. now rewrite Ht, Hl.
  - change (toUSVString (a :: b :: l))
      with (if isTrail a then 65533 :: toUSVString (b :: l)
            else if isLead a then
              if isTrail b then a :: b :: toUSVString l
              else 65533 :: toUSVString (b :: l)
            else a :: toUSVString (b :: l)).
    destruct (isTrail a) eqn:Ht; [exact IHbl|].
    destruct (isLead a) eqn:Hl.
    + destruct (isTrail b) eqn:Hb; [|exact IHbl].
      change (isWellFormed (a :: b :: toUSVString l))
        with (if isTrail a then false
              else if isLead a then isTrail b && isWellFormed (toUSVString l)
              else isWellFormed (b :: toUSVString l)).
      now rewrite Ht, Hl, Hb, IHl.
    + change (isWellFormed (a :: toUSVString (b :: l)))
        with (if isTrail a then false
              else if isLead a then
                match toUSVString (b :: l) with
                | d :: r' => isTrail d && isWellFormed r'
                | [] => false
                end
              else isWellFormed (toUSVString (b :: l))).
      now rewrite Ht, Hl.
Qed.

End WebIdlFacts.

(** ** What the operations add to the trace *)

Lemma moveCalls_app a b : moveCalls (a ++ b) = moveCalls a ++ moveCalls b.
Proof.
  induction a as [|e a IH]; [reflexivity|].
  destruct e as [| | | | | |[]|]; cbn; now rewrite IH.
Qed.

Lemma folderCalls_app a b : folderCalls (a ++ b) = (folderCalls a + folderCalls b)%nat.
Proof.
  induction a as [|e a IH]; [reflexivity|].
  destruct e as [| | | | | |[]|]; cbn; now rewrite IH.
Qed.

Lemma fetches_app a b : fetches (a ++ b) = fetches a ++ fetches b.
Proof.
  induction a as [|e a IH]; [reflexivity|]. destruct e; cbn; now rewrite IH.
Qed.

Lemma outputs_app a b : outputs (a ++ b) = outputs a ++ outputs b.
Proof.
  induction a as [|e a IH]; [reflexivity|]. destruct e; cbn; now rewrite IH.
Qed.

Lemma failures_app a b : failures (a ++ b) = failures a ++ failures b.
Proof.
  induction a as [|e a IH]; [reflexivity|]. destruct e; cbn; now rewrite IH.
Qed.

Ltac split_trace :=
  rewrite ?moveCalls_app, ?folderCalls_app, ?fetches_app, ?outputs_app,
    ?failures_app.

#[local] Arguments Js.lit : simpl never.
#[local] Arguments Js.ofN : simpl never.
#[local] Arguments Js.ofNat : simpl never.
#[local] Arguments Js.trim : simpl never.
#[local] Arguments Run.daFetch : simpl never.
#[local] Arguments Run.moveSource : simpl never.
#[local] Arguments Run.moveStep : simpl never.
#[local] Arguments Run.listSources : simpl never.
#[local] Arguments Run.createBackupFolder : simpl never.
#[local] Arguments moveOptions : simpl never.
#[local] Arguments requestOf : simpl never.
#[local] Arguments destPath : simpl never.
#[local] Arguments Date.timestamp : simpl never.

Lemma moveRequests_are_moves token org repo backup sources :
  Forall (isMoveRequest token)
    (flat_map (moveRequests token org repo backup) sources).
Proof.
  induction sources as [|source rest IH]; [constructor|].
  cbn [flat_map]. unfold moveRequests at 1.
  destruct (Uri.encodeSourcePath (toStr (path source))) as [encoded|];
    [|exact IH].
  constructor; [|exact IH]. now exists encoded, (destPath org repo backup source).
Qed.

(** Sources with well-formed paths have one move request each. *)
Lemma moveRequests_length token org repo backup sources :
  forallb (fun source => Wf.isWellFormed (toStr (path source))) sources = true ->
  List.length (flat_map (moveRequests token org repo backup) sources)
  = List.length sources.
Proof.
  induction sources as [|source rest IH]; [reflexivity|].
  cbn [forallb flat_map]. intros H. apply andb_true_iff in H.
  destruct H as [Hs Hrest]. rewrite length_app, (IH Hrest).
  unfold moveRequests, Uri.encodeSourcePath.
  rewrite WfFacts.encode_defined_iff_wellFormed in Hs.
  destruct (Uri.encodeURIComponent (toStr (path source))); [reflexivity|].
  discriminate Hs.
Qed.

Section ClientFacts.

Context {World : Type} (env : Env World).

(** [daFetch] hands exactly one request to the transport; when it returns,
    it has logged nothing. *)
Lemma daFetch_events token endpoint options w :
  let o := Run.daFetch env token endpoint options w in
  fetches (Run.events o) = [requestOf token endpoint options]
  /\ quiet (Run.events o)
  /\ (forall v, Run.result o = Normal v ->
      Run.events o = [Fetch (requestOf token endpoint options)]).
Proof.
  unfold Run.daFetch, Run.bind, Run.doFetch, requestOf.
  destruct (fetch env _ w) as [[res|msg] w']; cbn.
  2:{ repeat split; discriminate. }
  destruct (ok res); cbn.
  2:{ repeat split; discriminate. }
  destruct (status res =? 204); cbn.
  { repeat split. }
  destruct (match contentType res with Some _ => _ | None => _ end); cbn.
  2:{ repeat split. }
  destruct (json res); cbn; repeat split; discriminate.
Qed.

(** The options of the request of [moveSource]. *)
Lemma moveSource_events token sourcePath dest w :
  let o := Run.moveSource env token sourcePath dest w in
  exists tl,
    Run.events o = Enter (OpMove sourcePath dest) :: tl /\ quiet tl
    /\ fetches tl =
       match Uri.encodeSourcePath sourcePath with
       | Some encoded => [requestOf token (Js.lit "/move" ++ encoded) (moveOptions dest)]
       | None => []
       end.
Proof.
  unfold Run.moveSource, Run.bind, Run.emit.
  destruct (Uri.encodeSourcePath sourcePath) as [encoded|]; cbn.
  2:{ exists []. repeat split. }
  fold (moveOptions dest).
  destruct (daFetch_events token (Js.lit "/move" ++ encoded) (moveOptions dest) w)
    as (F & Q & _).
  destruct (Run.daFetch env token _ (moveOptions dest) w) as [[v|msg] w' evs];
    cbn in *.
  - exists (evs ++ []). rewrite app_nil_r. auto.
  - exists evs. auto.
Qed.

(** One turn of the loop never throws; its effect does not depend on the
    counter, which grows by one exactly when an eligible source was moved
    without an error. *)
Lemma moveStep_spec token org repo backup source c w :
  let o := Run.moveStep env token org repo backup source c w in
  let o0 := Run.moveStep env token org repo backup source 0 w in
  Run.result o
  = Normal (c + successfulMoves env token org repo backup [source] w)%nat
  /\ Run.after o = Run.after o0
  /\ Run.events o = Run.events o0
  /\ moveCalls (Run.events o)
     = (if eligible source then [moveArgs org repo backup source] else [])
  /\ folderCalls (Run.events o) = 0%nat
  /\ outputs (Run.events o) = []
  /\ failures (Run.events o) = [].
Proof.
  unfold successfulMoves, eligible, Run.moveStep.
  destruct (isReserved source); cbn [negb andb].
  { cbn. rewrite Nat.add_0_r. repeat split. }
  destruct (missingRequired source); cbn [negb andb].
  { cbn. rewrite Nat.add_0_r. repeat split. }
  unfold Run.tryCatch, Run.bind.
  destruct (moveSource_events token (toStr (path source))
              (destPath org repo backup source) w) as (tl & E & Q & _).
  destruct (Run.moveSource env token (toStr (path source))
              (destPath org repo backup source) w) as [[[]|msg] w' evs];
    cbn in E |- *; subst evs; cbn;
    destruct Q as (Q1 & Q2 & Q3 & Q4); split_trace;
    rewrite ?Q1, ?Q2, ?Q3, ?Q4, ?Nat.add_0_r, ?Nat.add_1_r; repeat split.
Qed.

(** An eligible source enters the move operation first, with its path and
    destination; the request goes out when the path can be encoded. *)
Lemma moveStep_eligible token org repo backup source c w :
  eligible source = true ->
  let sourcePath := toStr (path source) in
  let dest := destPath org repo backup source in
  exists tl,
    Run.events (Run.moveStep env token org repo backup source c w)
    = Enter (OpMove sourcePath dest) :: tl
    /\ moveCalls tl = []
    /\ fetches tl =
       match Uri.encodeSourcePath sourcePath with
       | Some encoded => [requestOf token (Js.lit "/move" ++ encoded) (moveOptions dest)]
       | None => []
       end.
Proof.
  intros Hel sourcePath dest. unfold eligible in Hel.
  apply andb_true_iff in Hel. destruct Hel as [Hr Hm].
  apply negb_true_iff in Hr, Hm.
  unfold Run.moveStep. rewrite Hr, Hm. fold sourcePath dest.
  unfold Run.tryCatch, Run.bind.
  destruct (moveSource_events token sourcePath dest w) as (tl & E & Q & F).
  destruct (Run.moveSource env token sourcePath dest w) as [[[]|msg] w' evs];
    cbn in E |- *; subst evs; destruct Q as (Q1 & _);
    eexists; (split; [reflexivity|]); split_trace; rewrite Q1, F; cbn;
    now rewrite ?app_nil_r.
Qed.

Lemma isReserved_spec source :
  isReserved source = true
  <-> exists n, name source = Some n /\ In n reservedItems.
Proof.
  unfold isReserved. destruct (name source) as [n|].
  - rewrite existsb_exists. split.
    + intros (x & Hin & Heq). exists n. split; [reflexivity|].
      unfold Js.eqb in Heq. destruct (list_eq_dec N.eq_dec n x); [now subst|discriminate].
    + intros (n' & [= <-] & Hin). exists n. split; [exact Hin|].
      unfold Js.eqb. now destruct (list_eq_dec N.eq_dec n n).
  - split; [discriminate|]. now intros (n & [=] & _).
Qed.

Lemma moveLoop_spec token org repo backup sources : forall c w,
  let o := Run.moveLoop env token org repo backup sources c w in
  Run.result o
  = Normal (c + successfulMoves env token org repo backup sources w)%nat
  /\ moveCalls (Run.events o)
     = map (moveArgs org repo backup) (filter eligible sources)
  /\ folderCalls (Run.events o) = 0%nat
  /\ outputs (Run.events o) = []
  /\ failures (Run.events o) = [].
Proof.
  induction sources as [|source rest IH]; intros c w.
  { cbn. rewrite Nat.add_0_r. repeat split. }
  cbn [Run.moveLoop successfulMoves filter]. unfold Run.bind.
  destruct (moveStep_spec token org repo backup source c w)
    as (R & A & _ & Mv & Fo & Ou & Fa).
  cbn [successfulMoves] in R. rewrite Nat.add_0_r in R.
  destruct (Run.moveStep env token org repo backup source c w) as [r w' evs].
  cbn in R, A, Mv, Fo, Ou, Fa. subst r w'.
  specialize (IH (c + if eligible source
                      then match Run.result (Run.moveSource env token
                                   (toStr (path source))
                                   (destPath org repo backup source) w) with
                           | Normal _ => 1
                           | Throw _ => 0
                           end
                      else 0)%nat
                 (Run.after (Run.moveStep env token org repo backup source 0 w))).
  destruct IH as (R' & Mv' & Fo' & Ou' & Fa').
  unfold Run.prepend. cbn [Run.result Run.events]. split_trace.
  rewrite R', Mv, Mv', Fo, Fo', Ou, Ou', Fa, Fa', Nat.add_assoc.
  repeat split. now destruct (eligible source).
Qed.

Lemma moveStep_fetches token org repo backup source c w :
  fetches (Run.events (Run.moveStep env token org repo backup source c w))
  = (if eligible source then moveRequests token org repo backup source else []).
Proof.
  destruct (eligible source) eqn:Hel.
  - destruct (moveStep_eligible token org repo backup source c w Hel)
      as (tl & E & _ & F).
    rewrite E. cbn [fetches]. exact F.
  - unfold eligible in Hel. unfold Run.moveStep.
    destruct (isReserved source); [reflexivity|].
    destruct (missingRequired source); [reflexivity | discriminate Hel].
Qed.

(** The requests of the loop are those of the eligible sources, in order. *)
Lemma moveLoop_fetches token org repo backup sources : forall c w,
  fetches (Run.events (Run.moveLoop env token org repo backup sources c w))
  = flat_map (moveRequests token org repo backup) (filter eligible sources).
Proof.
  induction sources as [|source rest IH]; intros c w; [reflexivity|].
  cbn [Run.moveLoop filter]. unfold Run.bind.
  pose proof (moveStep_fetches token org repo backup source c w) as F.
  destruct (moveStep_spec token org repo backup source c w) as (R & _).
  destruct (Run.moveStep env token org repo backup source c w) as [r w' evs].
  cbn in R, F. subst r. unfold Run.prepend. cbn [Run.events].
  split_trace. rewrite F, IH.
  destruct (eligible source); cbn [flat_map app]; reflexivity.
Qed.

(** The world the loop leaves behind does not depend on the counter. *)
Lemma moveLoop_after token org repo backup sources : forall c w,
  Run.after (Run.moveLoop env token org repo backup sources c w)
  = Run.after (Run.moveLoop env token org repo backup sources 0 w).
Proof.
  induction sources as [|source rest IH]; intros c w; [reflexivity|].
  cbn [Run.moveLoop]. unfold Run.bind.
  destruct (moveStep_spec token org repo backup source c w) as (R & A & _).
  destruct (moveStep_spec token org repo backup source 0%nat w) as (R0 & _).
  destruct (Run.moveStep env token org repo backup source c w) as [r w' evs].
  destruct (Run.moveStep env token org repo backup source 0 w) as [r0 w0 evs0].
  cbn in R, A, R0. subst r r0 w'. unfold Run.prepend. cbn [Run.after].
  etransitivity; [apply IH | symmetry; apply IH].
Qed.

Lemma successfulMoves_app token org repo backup before rest : forall w,
  successfulMoves env token org repo backup (before ++ rest) w
  = (successfulMoves env token org repo backup before w
     + successfulMoves env token org repo backup rest
         (Run.after (Run.moveLoop env token org repo backup before 0 w)))%nat.
Proof.
  induction before as [|source before IH]; intros w; [reflexivity|].
  cbn [app successfulMoves Run.moveLoop]. rewrite IH, Nat.add_assoc.
  f_equal. f_equal. unfold Run.bind.
  destruct (moveStep_spec token org repo backup source 0%nat w) as (R & _).
  destruct (Run.moveStep env token org repo backup source 0 w) as [r w' evs].
  cbn in R. subst r. unfold Run.prepend. cbn [Run.after].
  symmetry. apply moveLoop_after.
Qed.

Lemma logSources_events sources : forall index w,
  let o := Run.logSources env index sources w in
  Run.result o = Normal tt /\ Run.after o = w
  /\ quiet (Run.events o) /\ fetches (Run.events o) = [].
Proof.
  induction sources as [|source rest IH]; intros index w.
  { cbn. repeat split. }
  cbn [Run.logSources]. unfold Run.bind, Run.info, Run.emit.
  destruct (IH (S index) w) as (R & A & Q & F).
  cbn. rewrite R, A. repeat split; try apply Q. exact F.
Qed.

(** A listing that comes back was obtained with one [GET] of the list
    endpoint, and nothing else happened. *)
Lemma listSources_events token org repo path w :
  let o := Run.listSources env token org repo path w in
  let req := requestOf token (listEndpoint org repo path) Run.noOptions in
  exists tl,
    Run.events o = Enter (OpList org repo path) :: tl
    /\ quiet tl /\ fetches tl = [req]
    /\ (forall items, Run.result o = Normal items -> tl = [Fetch req]).
Proof.
  unfold Run.listSources, Run.bind, Run.emit.
  fold (listEndpoint org repo path). cbn.
  destruct (daFetch_events token (listEndpoint org repo path) Run.noOptions w)
    as (F & Q & N).
  destruct (Run.daFetch env token _ Run.noOptions w) as [[v|msg] w' evs];
    cbn in *.
  2:{ exists evs. repeat split; try apply Q; [exact F | discriminate]. }
  rewrite (N v eq_refl) in *.
  exists [Fetch (requestOf token (listEndpoint org repo path) Run.noOptions)].
  destruct v as [| | |[items|]]; cbn; repeat split; try apply Q; exact F.
Qed.

End ClientFacts.

(** ** The orchestrator *)

Section RunFacts.

Context {World : Type} (env : Env World).

Lemma run_handler (inputs : Inputs) w :
  Run.run env inputs w
  = match Run.runBody env inputs w with
    | Run.Out (Normal a) w' evs => Run.Out (Normal a) w' evs
    | Run.Out (Throw m) w' evs =>
        Run.Out (Normal tt) w'
          (evs ++ [Error (Js.lit "DA backup failed: " ++ m);
                   SetOutput (Js.lit "error_message") (Run.failureMark ++ m);
                   SetFailed m])
    end.
Proof.
  unfold Run.run, Run.tryCatch.
  destruct (Run.runBody env inputs w) as [[a|m] w' evs]; reflexivity.
Qed.

Lemma bind_emit {A} e (k : unit -> @Run.M World A) (w : World) :
  Run.bind (Run.emit e) k w = Run.prepend [e] (k tt w).
Proof. reflexivity. Qed.

Lemma bind_outcome {A B} (m : @Run.M World A) (k : A -> @Run.M World B)
    (w : World) r w' evs :
  m w = Run.Out r w' evs ->
  Run.bind m k w
  = match r with
    | Normal a => Run.prepend evs (k a w')
    | Throw e => Run.Out (Throw e) w' evs
    end.
Proof. intros E. unfold Run.bind. now rewrite E. Qed.

Lemma prepend_out {A} evs (r : Completion A) (w : World) evs' :
  Run.prepend evs (Run.Out r w evs') = Run.Out r w (evs ++ evs').
Proof. reflexivity. Qed.

(** The [try] block once the inputs are accepted and a token is there. *)
Lemma runBody_authenticated (inputs : Inputs) w token w1 :
  Js.truthy (Js.trim (in_org inputs)) = true ->
  Js.truthy (Js.trim (in_repo inputs)) = true ->
  getAccessTokenWithFallback env w = (Normal (Some token), w1) ->
  Js.truthy token = true ->
  let org := Js.trim (in_org inputs) in
  let repo := Js.trim (in_repo inputs) in
  let path := Js.trim (in_path inputs) in
  Run.runBody env inputs w
  = match Run.listSources env token org repo path w1 with
    | Run.Out (Throw m) w2 evL =>
        Run.Out (Throw m) w2 (startInfo inputs :: TokenRequested :: evL)
    | Run.Out (Normal sources) w2 evL =>
        Run.prepend
          (startInfo inputs :: TokenRequested :: evL
           ++ foundInfo sources :: Info (Js.lit "Sources found:")
           :: Run.events (Run.logSources env 0 sources w2))
          match sources with
          | [] =>
              Run.Out (Normal tt) w2
                [Info (Js.lit "No sources found to backup");
                 SetOutput (Js.lit "backup_folder_name")
                   (Js.lit "no-backup-needed")]
          | _ :: _ =>
              match Run.createBackupFolder env token org repo path w2 with
              | Run.Out (Throw m) w3 evC => Run.Out (Throw m) w3 evC
              | Run.Out (Normal backup) w3 evC =>
                  let l := Run.moveLoop env token org repo backup sources 0 w3 in
                  Run.Out (Normal tt) (Run.after l)
                    (evC ++ Run.events l
                     ++ [completedInfo
                           (successfulMoves env token org repo backup sources w3)
                           backup;
                         SetOutput (Js.lit "backup_folder_name")
                           (backupName backup)])
              end
          end
    end.
Proof.
  intros Horg Hrepo Htok Htruthy org repo path.
  unfold Run.runBody. rewrite Horg, Hrepo. cbn [negb orb].
  fold org repo path. unfold Run.info, Run.setOutput. rewrite bind_emit.
  rewrite (bind_outcome (Run.requestToken env) _ w (Normal (Some token)) w1
             [TokenRequested])
    by (unfold Run.requestToken; now rewrite Htok).
  cbn [Js.truthy_opt toStr]. rewrite Htruthy. cbn [negb].
  destruct (Run.listSources env token org repo path w1)
    as [[sources|m] w2 evL] eqn:EL;
    rewrite (bind_outcome _ _ _ _ _ _ EL).
  2:{ reflexivity. }
  rewrite !bind_emit.
  destruct (logSources_events env sources 0%nat w2) as (R & A & _ & _).
  destruct (Run.logSources env 0 sources w2) as [r w2' evLog] eqn:ELog.
  cbn in R, A. subst r w2'.
  rewrite (bind_outcome _ _ _ _ _ _ ELog).
  destruct sources as [|source rest].
  { rewrite bind_emit. unfold Run.emit, Run.prepend. cbn.
    unfold startInfo, foundInfo. fold org repo path.
    now rewrite <- app_assoc. }
  destruct (Run.createBackupFolder env token org repo path w2)
    as [[backup|m] w3 evC] eqn:EC;
    rewrite (bind_outcome _ _ _ _ _ _ EC).
  2:{ unfold Run.prepend. cbn. unfold startInfo, foundInfo. fold org repo path.
      now rewrite <- !app_assoc. }
  destruct (moveLoop_spec env token org repo backup (source :: rest) 0%nat w3)
    as (R & _).
  destruct (Run.moveLoop env token org repo backup (source :: rest) 0 w3)
    as [r w4 evM] eqn:EM.
  cbn [Run.result] in R. subst r. cbn [Nat.add] in EM.
  rewrite (bind_outcome _ _ _ _ _ _ EM). rewrite bind_emit.
  unfold Run.emit, Run.prepend. cbn.
  unfold startInfo, foundInfo, completedInfo. fold org repo path.
  now rewrite <- !app_assoc.
Qed.

(** C8.  When org or repo is missing or trims to the empty string, the
    run stops at the validation: the world is untouched, the trace holds
    nothing but the error log, the [error_message] output and the failed
    status, so neither the credential helper nor any listing, creation or
    move call was reached. *)
Theorem run_rejects_missing_inputs (inputs : Inputs) (w : World) :
  Js.trim (in_org inputs) = [] \/ Js.trim (in_repo inputs) = [] ->
  let m := Js.lit "Both org and repo inputs are required" in
  Run.run env inputs w
  = Run.Out (Normal tt) w
      [Error (Js.lit "DA backup failed: " ++ m);
       SetOutput (Js.lit "error_message") (Run.failureMark ++ m);
       SetFailed m]
  /\ fetches (Run.events (Run.run env inputs w)) = [].
Proof.
  intros H m.
  assert (E : Run.runBody env inputs w = Run.Out (Throw m) w []).
  { unfold Run.runBody.
    destruct H as [H|H]; rewrite H; cbn [Js.truthy negb orb]; [reflexivity|].
    now destruct (Js.truthy (Js.trim (in_org inputs))). }
  rewrite run_handler, E. split; reflexivity.
Qed.

(** C4.  When the listing comes back empty, the run ends normally in the
    world the listing left: no folder creation and no move was entered, the
    only request was the one of the listing, and the only output is
    [backup_folder_name] with the sentinel [no-backup-needed]; the run is
    not marked failed. *)
Theorem run_empty_listing (inputs : Inputs) (w : World) token w1 w2 evL :
  let org := Js.trim (in_org inputs) in
  let repo := Js.trim (in_repo inputs) in
  let path := Js.trim (in_path inputs) in
  Js.truthy org = true ->
  Js.truthy repo = true ->
  getAccessTokenWithFallback env w = (Normal (Some token), w1) ->
  Js.truthy token = true ->
  Run.listSources env token org repo path w1 = Run.Out (Normal []) w2 evL ->
  exists evs,
    Run.run env inputs w = Run.Out (Normal tt) w2 evs
    /\ folderCalls evs = 0%nat
    /\ moveCalls evs = []
    /\ fetches evs = [requestOf token (listEndpoint org repo path) Run.noOptions]
    /\ outputs evs = [(Js.lit "backup_folder_name", Js.lit "no-backup-needed")]
    /\ failures evs = [].
Proof.
  intros org repo path Horg Hrepo Htok Htruthy HL.
  rewrite run_handler,
    (runBody_authenticated inputs w token w1 Horg Hrepo Htok Htruthy).
  fold org repo path.
  destruct (listSources_events env token org repo path w1)
    as (tl & E & _ & _ & N).
  rewrite HL in *. cbn in E, N. rewrite (N [] eq_refl) in E. subst evL.
  eexists. split; [reflexivity|]. repeat split.
Qed.

(** C10.  When the list request is answered with [204 No Content],
    [daFetch] returns [null], [listSources] throws on reading [sources] of
    it, and the run ends failed with that error: the response is not taken
    for an empty listing, and no [backup_folder_name] is output. *)
Theorem run_list_no_content (inputs : Inputs) (w : World) token w1 res w2 :
  let org := Js.trim (in_org inputs) in
  let repo := Js.trim (in_repo inputs) in
  let path := Js.trim (in_path inputs) in
  let req := requestOf token (listEndpoint org repo path) Run.noOptions in
  let m := msgNullProperty env (Js.lit "sources") in
  Js.truthy org = true ->
  Js.truthy repo = true ->
  getAccessTokenWithFallback env w = (Normal (Some token), w1) ->
  Js.truthy token = true ->
  fetch env req w1 = (Normal res, w2) ->
  status res = 204 ->
  Run.daFetch env token (listEndpoint org repo path) Run.noOptions w1
  = Run.Out (Normal VNull) w2 [Fetch req]
  /\ Run.listSources env token org repo path w1
     = Run.Out (Throw m) w2 [Enter (OpList org repo path); Fetch req]
  /\ Run.run env inputs w
     = Run.Out (Normal tt) w2
         [startInfo inputs; TokenRequested; Enter (OpList org repo path);
          Fetch req;
          Error (Js.lit "DA backup failed: " ++ m);
          SetOutput (Js.lit "error_message") (Run.failureMark ++ m);
          SetFailed m].
Proof.
  intros org repo path req m Horg Hrepo Htok Htruthy Hfetch Hstatus.
  assert (D : Run.daFetch env token (listEndpoint org repo path) Run.noOptions w1
              = Run.Out (Normal VNull) w2 [Fetch req]).
  { unfold Run.daFetch, Run.bind, Run.doFetch. fold req.
    change (fetch env _ w1) with (fetch env req w1). rewrite Hfetch.
    unfold ok. rewrite Hstatus. reflexivity. }
  assert (L : Run.listSources env token org repo path w1
              = Run.Out (Throw m) w2 [Enter (OpList org repo path); Fetch req]).
  { unfold Run.listSources. rewrite bind_emit.
    fold (listEndpoint org repo path).
    now rewrite (bind_outcome _ _ _ _ _ _ D). }
  repeat split; [exact D | exact L |].
  rewrite run_handler,
    (runBody_authenticated inputs w token w1 Horg Hrepo Htok Htruthy).
  fold org repo path. now rewrite L.
Qed.

(** A folder creation that returns: the name, the path and the trace. *)
Lemma createBackupFolder_normal token org repo parentPath (w : World)
    backup w' evs :
  Run.createBackupFolder env token org repo parentPath w
  = Run.Out (Normal backup) w' evs ->
  let folder := Js.lit "backup-" ++ Date.timestamp (now env w) in
  backupName backup = folder
  /\ backupPath backup
     = (if Js.truthy parentPath then parentPath ++ [47] ++ folder else folder)
  /\ evs = [Enter (OpCreateFolder org repo parentPath);
            Fetch (requestOf token
                     (folderEndpoint org repo (backupPath backup))
                     folderOptions);
            Info (Js.lit "Created backup folder: " ++ folder)].
Proof.
  intros E folder. unfold Run.createBackupFolder in E.
  rewrite bind_emit in E. unfold Run.clock in E.
  rewrite (bind_outcome _ _ w (Normal (now env w)) w [] eq_refl) in E.
  fold folder folderOptions in E.
  match type of E with
  | context [Run.daFetch env ?t ?e ?o] =>
      destruct (daFetch_events env t e o w) as (_ & _ & N);
      destruct (Run.daFetch env t e o w) as [[v|msg] w1 evF] eqn:ED;
      rewrite (bind_outcome _ _ _ _ _ _ ED) in E
  end.
  2:{ discriminate E. }
  cbn in N. rewrite (N v eq_refl) in E.
  unfold Run.info in E. rewrite bind_emit in E.
  unfold Run.ret, Run.prepend in E. cbn in E.
  injection E as <- <- <-. cbn [backupName backupPath].
  repeat split.
Qed.

(** The run once the backup folder exists: the loop runs to its end and
    the run reports the number of successful moves and the folder name. *)
Lemma run_backup (inputs : Inputs) (w : World) token w1 sources w2 evL
    backup w3 evC :
  let org := Js.trim (in_org inputs) in
  let repo := Js.trim (in_repo inputs) in
  let path := Js.trim (in_path inputs) in
  Js.truthy org = true ->
  Js.truthy repo = true ->
  getAccessTokenWithFallback env w = (Normal (Some token), w1) ->
  Js.truthy token = true ->
  Run.listSources env token org repo path w1 = Run.Out (Normal sources) w2 evL ->
  sources <> [] ->
  Run.createBackupFolder env token org repo path w2
  = Run.Out (Normal backup) w3 evC ->
  let l := Run.moveLoop env token org repo backup sources 0 w3 in
  exists before,
    Run.run env inputs w
    = Run.Out (Normal tt) (Run.after l)
        (before ++ Run.events l
         ++ [completedInfo
               (successfulMoves env token org repo backup sources w3) backup;
             SetOutput (Js.lit "backup_folder_name") (backupName backup)])
    /\ moveCalls before = [] /\ folderCalls before = 1%nat
    /\ outputs before = [] /\ failures before = []
    /\ fetches before
       = [requestOf token (listEndpoint org repo path) Run.noOptions;
          requestOf token (folderEndpoint org repo (backupPath backup))
            folderOptions].
Proof.
  intros org repo path Horg Hrepo Htok Htruthy HL Hne HC l.
  rewrite run_handler,
    (runBody_authenticated inputs w token w1 Horg Hrepo Htok Htruthy).
  fold org repo path. rewrite HL.
  destruct sources as [|source rest]; [contradiction|].
  rewrite HC. fold l. cbv zeta. rewrite prepend_out.
  destruct (listSources_events env token org repo path w1)
    as (tlL & EL & (L1 & L2 & L3 & L4) & L5 & _).
  rewrite HL in EL. cbn in EL. subst evL.
  destruct (createBackupFolder_normal token org repo path w2 backup w3 evC HC)
    as (_ & _ & EC).
  destruct (logSources_events env (source :: rest) 0%nat w2)
    as (_ & _ & (G1 & G2 & G3 & G4) & G5).
  remember (Run.events (Run.logSources env 0 (source :: rest) w2)) as evLog.
  eexists. split.
  { rewrite (app_assoc _ evC (Run.events l ++ _)). reflexivity. }
  subst evC. cbn. split_trace. cbn. split_trace.
  rewrite L1, L2, L3, L4, L5, G1, G2, G3, G4, G5.
  repeat split.
Qed.

Lemma partition_lengths (sources : list Source) :
  (List.length (filter eligible sources)
   + List.length (filter isReserved sources)
   + List.length (filter skippedAsMalformed sources))%nat
  = List.length sources.
Proof.
  induction sources as [|s rest IH]; [reflexivity|].
  cbn [filter].
  replace (eligible s) with (negb (isReserved s) && negb (missingRequired s))
    by reflexivity.
  replace (skippedAsMalformed s) with (negb (isReserved s) && missingRequired s)
    by reflexivity.
  destruct (isReserved s), (missingRequired s); cbn [negb andb List.length]; lia.
Qed.

(** C2, as amended.  In every run with non-empty org and repo, a token, a
    non-empty listing and a backup folder that was created, the move
    operation is invoked once for each listed source that is neither
    reserved nor lacking [path] or [name], in listing order; so the number
    of its invocations is the number of listed items minus the reserved
    ones minus the non-reserved ones that lack [path] or [name].  The
    requests of the run are the one of the listing, the one of the folder
    and then the moves, one for each of those sources whose path can be
    encoded; when all their paths are well-formed UTF-16 the number of move
    requests sent is that same number. *)
Theorem run_move_count (inputs : Inputs) (w : World) token w1 sources w2 evL
    backup w3 evC :
  let org := Js.trim (in_org inputs) in
  let repo := Js.trim (in_repo inputs) in
  let dir := Js.trim (in_path inputs) in
  Js.truthy org = true ->
  Js.truthy repo = true ->
  getAccessTokenWithFallback env w = (Normal (Some token), w1) ->
  Js.truthy token = true ->
  Run.listSources env token org repo dir w1 = Run.Out (Normal sources) w2 evL ->
  sources <> [] ->
  Run.createBackupFolder env token org repo dir w2
  = Run.Out (Normal backup) w3 evC ->
  let evs := Run.events (Run.run env inputs w) in
  let calls := moveCalls evs in
  let count :=
    (Z.of_nat (List.length sources)
     - Z.of_nat (List.length (filter isReserved sources))
     - Z.of_nat (List.length (filter skippedAsMalformed sources)))%Z in
  calls = map (moveArgs org repo backup) (filter eligible sources)
  /\ Z.of_nat (List.length calls) = count
  /\ fetches evs
     = requestOf token (listEndpoint org repo dir) Run.noOptions
       :: requestOf token (folderEndpoint org repo (backupPath backup))
            folderOptions
       :: flat_map (moveRequests token org repo backup)
            (filter eligible sources)
  /\ (forallb (fun source => Wf.isWellFormed (toStr (path source)))
        (filter eligible sources) = true ->
      exists moves,
        fetches evs
        = requestOf token (listEndpoint org repo dir) Run.noOptions
          :: requestOf token (folderEndpoint org repo (backupPath backup))
               folderOptions
          :: moves
        /\ Forall (isMoveRequest token) moves
        /\ Z.of_nat (List.length moves) = count).
Proof.
  intros org repo dir Horg Hrepo Htok Htruthy HL Hne HC evs calls count.
  destruct (run_backup inputs w token w1 sources w2 evL backup w3 evC
              Horg Hrepo Htok Htruthy HL Hne HC)
    as (before & E & B & _ & _ & _ & BF).
  fold org repo dir in E, BF.
  assert (Ecalls : calls = map (moveArgs org repo backup) (filter eligible sources)).
  { unfold calls, evs. rewrite E. cbn [Run.events]. split_trace. rewrite B.
    destruct (moveLoop_spec env token org repo backup sources 0%nat w3)
      as (_ & Mv & _).
    rewrite Mv. cbn. now rewrite app_nil_r. }
  assert (Ecount : Z.of_nat (List.length (filter eligible sources)) = count).
  { unfold count. pose proof (partition_lengths sources). lia. }
  assert (Efetch : fetches evs
            = requestOf token (listEndpoint org repo dir) Run.noOptions
              :: requestOf token (folderEndpoint org repo (backupPath backup))
                   folderOptions
              :: flat_map (moveRequests token org repo backup)
                   (filter eligible sources)).
  { unfold evs. rewrite E. cbn [Run.events]. split_trace.
    rewrite BF, moveLoop_fetches. cbn. now rewrite app_nil_r. }
  split; [exact Ecalls|]. split; [|split; [exact Efetch|]].
  - now rewrite Ecalls, length_map.
  - intros Hwf. eexists. split; [exact Efetch|]. split.
    + apply moveRequests_are_moves.
    + now rewrite (moveRequests_length token org repo backup _ Hwf).
Qed.

(** C5.  Whichever eligible source of the listing fails to move, the loop
    goes on: the move operation is entered for every eligible source before
    and after it, the run ends normally with the folder name as its output
    and is not marked failed, and the count it reports is the number of
    moves that completed, the failed one not among them. *)
Theorem run_survives_failed_move (inputs : Inputs) (w : World) token w1
    before source rest w2 evL backup w3 evC m :
  let org := Js.trim (in_org inputs) in
  let repo := Js.trim (in_repo inputs) in
  let dir := Js.trim (in_path inputs) in
  let sources := before ++ source :: rest in
  let wS := Run.after (Run.moveLoop env token org repo backup before 0 w3) in
  let wR := Run.after (Run.moveStep env token org repo backup source 0 wS) in
  Js.truthy org = true ->
  Js.truthy repo = true ->
  getAccessTokenWithFallback env w = (Normal (Some token), w1) ->
  Js.truthy token = true ->
  Run.listSources env token org repo dir w1 = Run.Out (Normal sources) w2 evL ->
  Run.createBackupFolder env token org repo dir w2
  = Run.Out (Normal backup) w3 evC ->
  eligible source = true ->
  Run.result (Run.moveSource env token (toStr (path source))
                (destPath org repo backup source) wS) = Throw m ->
  let o := Run.run env inputs w in
  Run.result o = Normal tt
  /\ moveCalls (Run.events o)
     = map (moveArgs org repo backup) (filter eligible before)
       ++ moveArgs org repo backup source
       :: map (moveArgs org repo backup) (filter eligible rest)
  /\ failures (Run.events o) = []
  /\ outputs (Run.events o)
     = [(Js.lit "backup_folder_name", backupName backup)]
  /\ In (completedInfo
           (successfulMoves env token org repo backup before w3
            + successfulMoves env token org repo backup rest wR) backup)
        (Run.events o).
Proof.
  intros org repo dir sources wS wR Horg Hrepo Htok Htruthy HL HC Hel Hfail o.
  assert (Hne : sources <> []) by (unfold sources; now destruct before).
  destruct (run_backup inputs w token w1 sources w2 evL backup w3 evC
              Horg Hrepo Htok Htruthy HL Hne HC)
    as (pre & E & B1 & B2 & B3 & B4 & _).
  fold org repo dir in E. unfold o. rewrite E. cbn [Run.result Run.events].
  destruct (moveLoop_spec env token org repo backup sources 0%nat w3)
    as (_ & Mv & _ & Ou & Fa).
  split_trace. rewrite B1, B3, B4, Mv, Ou, Fa.
  repeat split.
  - unfold sources. rewrite filter_app, map_app. cbn [filter].
    rewrite Hel. cbn. now rewrite app_nil_r.
  - apply in_or_app. right. apply in_or_app. right. left. f_equal.
    unfold sources. rewrite successfulMoves_app. fold wS.
    cbn [successfulMoves]. rewrite Hel, Hfail. reflexivity.
Qed.

(** C1, as amended.  A listed source that is not reserved is skipped with
    the warning, the counter and the world left as they were and no move
    entered, exactly when it lacks [path] or lacks [name] (a missing or
    empty property); with both present it is not skipped as malformed. *)
Theorem skipped_when_path_or_name_missing token org repo backup source c
    (w : World) :
  isReserved source = false ->
  Run.moveStep env token org repo backup source c w
  = Run.Out (Normal c) w
      [Warning (Js.lit "Source missing required properties: "
                ++ stringify env source)]
  <-> Js.truthy_opt (path source) = false
      \/ Js.truthy_opt (name source) = false.
Proof.
  intros Hr. split.
  - intros E.
    destruct (Js.truthy_opt (path source)) eqn:Hp; [|now left].
    destruct (Js.truthy_opt (name source)) eqn:Hn; [|now right].
    assert (Hel : eligible source = true).
    { unfold eligible, missingRequired. now rewrite Hr, Hp, Hn. }
    destruct (moveStep_eligible env token org repo backup source c w Hel)
      as (tl & Ev & _).
    rewrite E in Ev. discriminate Ev.
  - intros H. unfold Run.moveStep. rewrite Hr.
    assert (Hm : missingRequired source = true).
    { unfold missingRequired. destruct H as [H|H]; rewrite H; cbn;
        [reflexivity | apply orb_true_r]. }
    now rewrite Hm.
Qed.

(** C3.  A source whose name is [tools] or [block-collection] is passed
    over with one informational log, the counter and the world unchanged;
    and for every listing the move operation is entered exactly for the
    eligible sources, in order, none of which has a reserved name. *)
Theorem reserved_never_moved token org repo backup :
  (forall source n c (w : World),
      name source = Some n -> In n reservedItems ->
      Run.moveStep env token org repo backup source c w
      = Run.Out (Normal c) w [Info (Js.lit "Skipping reserved item: " ++ n)])
  /\ (forall sources c (w : World),
        let moved := filter eligible sources in
        moveCalls (Run.events (Run.moveLoop env token org repo backup sources c w))
        = map (moveArgs org repo backup) moved
        /\ forall source n,
             In source moved -> name source = Some n -> ~ In n reservedItems).
Proof.
  split.
  - intros source n c w Hn Hin.
    assert (Hr : isReserved source = true) by (apply isReserved_spec; eauto).
    unfold Run.moveStep. rewrite Hr, Hn. reflexivity.
  - intros sources c w moved. split.
    + apply (moveLoop_spec env token org repo backup sources c w).
    + intros source n Hin Hn Hres. apply filter_In in Hin.
      destruct Hin as [_ Hel]. unfold eligible in Hel.
      apply andb_true_iff in Hel. destruct Hel as [Hr _].
      apply negb_true_iff in Hr.
      assert (isReserved source = true) by (apply isReserved_spec; eauto).
      congruence.
Qed.

(** C7.  For a source that is moved, the destination handed to the move
    operation is [/org/repo/backup.path/fileName], where [fileName] is
    [name.ext] when the source has a (non-empty) [ext] and [name] otherwise.
    The request carries it as the [destination] field of the form, as
    [append] stores it: with every lone surrogate replaced by U+FFFD, so
    unchanged when the destination is well-formed. *)
Theorem move_destination token org repo backup source n p c (w : World) :
  name source = Some n ->
  path source = Some p ->
  eligible source = true ->
  let file :=
    match ext source with
    | Some e => if Js.truthy e then n ++ [46] ++ e else n
    | None => n
    end in
  let dest :=
    [47] ++ org ++ [47] ++ repo ++ [47] ++ backupPath backup ++ [47]
    ++ file in
  let evs := Run.events (Run.moveStep env token org repo backup source c w) in
  moveCalls evs = [(p, dest)]
  /\ (forall req, In req (fetches evs) ->
        body req = Some [(Js.lit "destination", WebIdl.toUSVString dest)])
  /\ (Wf.isWellFormed dest = true ->
      forall req, In req (fetches evs) ->
        body req = Some [(Js.lit "destination", dest)]).
Proof.
  intros Hn Hp Hel file dest evs.
  destruct (moveStep_eligible env token org repo backup source c w Hel)
    as (tl & E & Mv & F).
  assert (Hd : destPath org repo backup source = dest).
  { unfold destPath, dest, file, fileName.
    rewrite Hn. now destruct (ext source) as [e|]. }
  unfold evs. rewrite E, Hd, Hp in *. cbn [toStr] in *.
  assert (B : forall req, In req (fetches (Enter (OpMove p dest) :: tl)) ->
                body req = Some [(Js.lit "destination", WebIdl.toUSVString dest)]).
  { cbn [fetches]. rewrite F. intros req Hin.
    destruct (Uri.encodeSourcePath p); [|contradiction].
    destruct Hin as [<-|[]]. reflexivity. }
  split; [|split].
  - cbn. now rewrite Mv.
  - exact B.
  - intros Hwf req Hin. rewrite (B req Hin).
    now rewrite (WebIdlFacts.toUSVString_wellFormed dest Hwf).
Qed.

(** C6.  A backup folder that is created is named [backup-] followed by
    the 19 characters [YYYY-MM-DDTHH-mm-ss] of the current UTC time (years
    of four digits), and its path is [parentPath/name] when a parent path
    is given and the name alone otherwise; the folder is created by one
    request to [/source/org/repo/path]. *)
Theorem backup_folder_name token org repo parentPath (w : World) backup w' evs :
  Run.createBackupFolder env token org repo parentPath w
  = Run.Out (Normal backup) w' evs ->
  (0 <= Date.year (now env w) <= 9999)%Z ->
  let stamp := Date.secondStamp (now env w) in
  backupName backup = Js.lit "backup-" ++ stamp
  /\ List.length stamp = 19%nat
  /\ backupPath backup
     = (if Js.truthy parentPath
        then parentPath ++ [47] ++ backupName backup
        else backupName backup)
  /\ fetches evs
     = [requestOf token
          (Js.lit "/source/" ++ org ++ [47] ++ repo ++ [47] ++ backupPath backup)
          {| opt_method := Some POST; opt_body := None |}].
Proof.
  intros E Hy stamp.
  destruct (createBackupFolder_normal token org repo parentPath w backup w' evs E)
    as (Hn & Hp & Hev).
  rewrite (DateFacts.timestamp_second _ Hy) in Hn, Hp. fold stamp in Hn, Hp.
  split; [exact Hn|]. split; [reflexivity|]. split.
  - now rewrite Hn.
  - rewrite Hev. reflexivity.
Qed.

End RunFacts.

(** ** The statements at work on the scripted environment *)

Lemma run_rejects_missing_inputs_witness :
  (Js.trim (in_org Sample.blankOrg) = [] \/ Js.trim (in_repo Sample.blankOrg) = [])
  /\ fetches (Run.events (Run.run Sample.env Sample.blankOrg [])) = []
  /\ failures (Run.events (Run.run Sample.env Sample.blankOrg []))
     = [Js.lit "Both org and repo inputs are required"].
Proof.
  split; [left; reflexivity|].
  split.
  - apply (run_rejects_missing_inputs Sample.env Sample.blankOrg []).
    left. reflexivity.
  - rewrite (proj1 (run_rejects_missing_inputs Sample.env Sample.blankOrg []
                      (or_introl eq_refl))).
    reflexivity.
Defined.

Lemma run_empty_listing_witness :
  exists evs,
    Run.run Sample.env Sample.inputs [Normal (Sample.listing [])]
    = Run.Out (Normal tt) [] evs
    /\ folderCalls evs = 0%nat
    /\ moveCalls evs = []
    /\ fetches evs
       = [requestOf Sample.token (listEndpoint Sample.org Sample.repo [])
            Run.noOptions]
    /\ outputs evs = [(Js.lit "backup_folder_name", Js.lit "no-backup-needed")]
    /\ failures evs = [].
Proof.
  eapply (run_empty_listing Sample.env Sample.inputs
            [Normal (Sample.listing [])] Sample.token);
    reflexivity.
Defined.

Lemma run_list_no_content_witness :
  Run.result (Run.listSources Sample.env Sample.token Sample.org Sample.repo []
                [Normal Sample.noContent])
  = Throw (msgNullProperty Sample.env (Js.lit "sources"))
  /\ failures (Run.events (Run.run Sample.env Sample.inputs
                             [Normal Sample.noContent]))
     = [msgNullProperty Sample.env (Js.lit "sources")].
Proof.
  destruct (run_list_no_content Sample.env Sample.inputs
              [Normal Sample.noContent] Sample.token
              [Normal Sample.noContent] Sample.noContent []
              eq_refl eq_refl eq_refl eq_refl eq_refl eq_refl)
    as (_ & L & R).
  split.
  - exact (f_equal Run.result L).
  - exact (f_equal (fun o => failures (Run.events o)) R).
Defined.

Lemma run_move_count_witness :
  let sources := [Sample.tools; Sample.index; Sample.nameOnly; Sample.about] in
  let org := Js.trim (in_org Sample.inputs) in
  let repo := Js.trim (in_repo Sample.inputs) in
  let dir := Js.trim (in_path Sample.inputs) in
  let evs := Run.events (Run.run Sample.env Sample.inputs
                           (Sample.served sources)) in
  let count :=
    (Z.of_nat (List.length sources)
     - Z.of_nat (List.length (filter isReserved sources))
     - Z.of_nat (List.length (filter skippedAsMalformed sources)))%Z in
  moveCalls evs = map (moveArgs org repo Sample.backup) (filter eligible sources)
  /\ Z.of_nat (List.length (moveCalls evs)) = count
  /\ exists moves,
       fetches evs
       = requestOf Sample.token (listEndpoint org repo dir) Run.noOptions
         :: requestOf Sample.token
              (folderEndpoint org repo (backupPath Sample.backup)) folderOptions
         :: moves
       /\ Forall (isMoveRequest Sample.token) moves
       /\ Z.of_nat (List.length moves) = count.
Proof.
  intros sources org repo dir evs count.
  pose (l := Run.listSources Sample.env Sample.token org repo dir
               (Sample.served sources)).
  pose (f := Run.createBackupFolder Sample.env Sample.token org repo dir
               (Run.after l)).
  assert (HL : l = Run.Out (Normal sources) (Run.after l) (Run.events l))
    by (vm_compute; reflexivity).
  assert (HF : f = Run.Out (Normal Sample.backup) (Run.after f) (Run.events f))
    by (vm_compute; reflexivity).
  assert (Hne : sources <> []) by discriminate.
  destruct (run_move_count Sample.env Sample.inputs (Sample.served sources)
              Sample.token (Sample.served sources) sources
              (Run.after l) (Run.events l) Sample.backup
              (Run.after f) (Run.events f)
              eq_refl eq_refl eq_refl eq_refl HL Hne HF)
    as (H1 & H2 & _ & H4).
  split; [exact H1|]. split; [exact H2|]. exact (H4 eq_refl).
Defined.

Lemma run_survives_failed_move_witness :
  let w := Sample.firstMoveRefused [Sample.index; Sample.about] in
  let o := Run.run Sample.env Sample.inputs w in
  Run.result o = Normal tt
  /\ failures (Run.events o) = []
  /\ List.length (moveCalls (Run.events o)) = 2%nat.
Proof.
  intros w o.
  pose (org := Js.trim (in_org Sample.inputs)).
  pose (repo := Js.trim (in_repo Sample.inputs)).
  pose (dir := Js.trim (in_path Sample.inputs)).
  pose (l := Run.listSources Sample.env Sample.token org repo dir w).
  pose (f := Run.createBackupFolder Sample.env Sample.token org repo dir
               (Run.after l)).
  assert (HL : l = Run.Out (Normal ([] ++ Sample.index :: [Sample.about]))
                     (Run.after l) (Run.events l))
    by (vm_compute; reflexivity).
  assert (HF : f = Run.Out (Normal Sample.backup) (Run.after f) (Run.events f))
    by (vm_compute; reflexivity).
  assert (Hfail :
    Run.result
      (Run.moveSource Sample.env Sample.token (toStr (path Sample.index))
         (destPath org repo Sample.backup Sample.index)
         (Run.after (Run.moveLoop Sample.env Sample.token org repo
                       Sample.backup [] 0 (Run.after f))))
    = Throw (Js.lit "DA Admin API error 500: boom"))
    by (vm_compute; reflexivity).
  destruct (run_survives_failed_move Sample.env Sample.inputs w Sample.token w
              [] Sample.index [Sample.about] (Run.after l) (Run.events l)
              Sample.backup (Run.after f) (Run.events f)
              (Js.lit "DA Admin API error 500: boom")
              eq_refl eq_refl eq_refl eq_refl HL HF eq_refl Hfail)
    as (R & Mv & Fa & _).
  split; [exact R|]. split; [exact Fa|].
  exact (f_equal (@List.length _) Mv).
Defined.

Lemma skipped_when_path_or_name_missing_witness :
  isReserved Sample.nameOnly = false
  /\ (Run.moveStep Sample.env Sample.token Sample.org Sample.repo Sample.backup
        Sample.nameOnly 0 []
      = Run.Out (Normal 0%nat) []
          [Warning (Js.lit "Source missing required properties: "
                    ++ stringify Sample.env Sample.nameOnly)]
      <-> Js.truthy_opt (path Sample.nameOnly) = false
          \/ Js.truthy_opt (name Sample.nameOnly) = false).
Proof.
  split; [reflexivity|].
  apply (skipped_when_path_or_name_missing Sample.env). reflexivity.
Defined.

Lemma reserved_never_moved_witness :
  Run.moveStep Sample.env Sample.token Sample.org Sample.repo Sample.backup
    Sample.tools 0 []
  = Run.Out (Normal 0%nat) []
      [Info (Js.lit "Skipping reserved item: " ++ Js.lit "tools")]
  /\ moveCalls (Run.events
       (Run.moveLoop Sample.env Sample.token Sample.org Sample.repo
          Sample.backup [Sample.tools; Sample.index] 0 []))
     = [moveArgs Sample.org Sample.repo Sample.backup Sample.index].
Proof.
  destruct (reserved_never_moved Sample.env Sample.token Sample.org Sample.repo
              Sample.backup) as [Hstep Hloop].
  split.
  - apply Hstep; [reflexivity | left; reflexivity].
  - apply (Hloop [Sample.tools; Sample.index] 0%nat []).
Defined.

Lemma move_destination_witness :
  moveCalls (Run.events
    (Run.moveStep Sample.env Sample.token Sample.org Sample.repo Sample.backup
       Sample.index 0 []))
  = [(Js.lit "/o/r/index", Js.lit "/o/r/backup-2025-03-09T14-05-07/index.html")].
Proof.
  apply (move_destination Sample.env Sample.token Sample.org Sample.repo
           Sample.backup Sample.index (Js.lit "index") (Js.lit "/o/r/index")
           0%nat [] eq_refl eq_refl eq_refl).
Defined.

Example move_destination_lone_surrogate :
  let evs := Run.events
    (Run.moveStep Sample.env Sample.token Sample.org Sample.repo Sample.backup
       Sample2.oddName 0 []) in
  moveCalls evs
  = [(Js.lit "/o/r/a",
      Js.lit "/o/r/backup-2025-03-09T14-05-07/a" ++ [55357])]
  /\ map body (fetches evs)
     = [Some [(Js.lit "destination",
               Js.lit "/o/r/backup-2025-03-09T14-05-07/a" ++ [65533])]].
Proof. split; reflexivity. Qed.

Lemma backup_folder_name_witness :
  Run.result (Run.createBackupFolder Sample.env Sample.token Sample.org
                Sample.repo [] [Normal Sample.created])
  = Normal Sample.backup
  /\ (0 <= Date.year (now Sample.env [Normal Sample.created]) <= 9999)%Z
  /\ backupName Sample.backup
     = Js.lit "backup-" ++ Date.secondStamp Sample.time.
Proof.
  split; [reflexivity|]. split; [cbn; lia|].
  eapply (backup_folder_name Sample.env Sample.token Sample.org Sample.repo []
            [Normal Sample.created] Sample.backup).
  - reflexivity.
  - cbn. lia.
Defined.

(** ** Where the specification's wording departs from the script *)

(** C1 as stated fails: a source with a name and no path is not reserved
    and does not lack both properties, and yet it is skipped with the
    warning and never moved. *)
Lemma skipped_only_when_both_missing_fails :
  isReserved Sample.nameOnly = false
  /\ lacksBoth Sample.nameOnly = false
  /\ Js.truthy_opt (name Sample.nameOnly) = true
  /\ Run.moveStep Sample.env Sample.token Sample.org Sample.repo Sample.backup
       Sample.nameOnly 0 []
     = Run.Out (Normal 0%nat) []
         [Warning (Js.lit "Source missing required properties: "
                   ++ stringify Sample.env Sample.nameOnly)].
Proof. repeat split. Qed.

(** C2 as stated fails in three ways, whether a move call is an invocation
    of the move operation or a request it sends.  With a listing of one
    source that has a name and no path, nothing is reserved and nothing
    lacks both properties, so the count should be one, and no move is
    issued.  With a listing of one well-formed source and a folder creation
    that is refused, the count should be one, and the run fails before any
    move.  With a listing of one source whose path ends in a lone
    surrogate, the count should be one and the move operation is invoked
    once, and it throws before sending anything: the requests of the run
    are the listing and the folder creation. *)
Lemma move_count_as_stated_fails :
  let expected (sources : list Source) :=
    (Z.of_nat (List.length sources)
     - Z.of_nat (List.length (filter isReserved sources))
     - Z.of_nat (List.length (filter lacksBoth sources)))%Z in
  let issued (w : Sample.World) :=
    Z.of_nat (List.length
      (moveCalls (Run.events (Run.run Sample.env Sample.inputs w)))) in
  let requests (w : Sample.World) :=
    fetches (Run.events (Run.run Sample.env Sample.inputs w)) in
  let listed := listRequest Sample.token Sample.org Sample.repo [] in
  let folder :=
    folderRequest Sample.token Sample.org Sample.repo
      (backupPath Sample.backup) in
  (expected [Sample.nameOnly] = 1%Z
   /\ issued (Sample.served [Sample.nameOnly]) = 0%Z
   /\ requests (Sample.served [Sample.nameOnly]) = [listed; folder]
   /\ outputs (Run.events (Run.run Sample.env Sample.inputs
                             (Sample.served [Sample.nameOnly])))
      = [(Js.lit "backup_folder_name", backupName Sample.backup)])
  /\ (expected [Sample.index] = 1%Z
      /\ issued (Sample.folderRefused [Sample.index]) = 0%Z
      /\ requests (Sample.folderRefused [Sample.index]) = [listed; folder]
      /\ failures (Run.events (Run.run Sample.env Sample.inputs
                                 (Sample.folderRefused [Sample.index])))
         = [Js.lit "DA Admin API error 500: boom"])
  /\ (expected [Sample2.broken] = 1%Z
      /\ issued (Sample.served [Sample2.broken]) = 1%Z
      /\ requests (Sample.served [Sample2.broken]) = [listed; folder]
      /\ outputs (Run.events (Run.run Sample.env Sample.inputs
                                (Sample.served [Sample2.broken])))
         = [(Js.lit "backup_folder_name", backupName Sample.backup)]).
Proof. repeat split. Qed.

(* ================================================================= *)
(** * Further properties of the script *)

(** ** The encoding of the source path *)

Module UriMore.
Import Uri Wf WfFacts.

(** X1.  [encodeURIComponent(sourcePath).replace(/%2F/g, '/')] raises the
    [URIError] exactly on the paths that are not well-formed UTF-16. *)
Theorem encodeSourcePath_fails_iff_ill_formed (sourcePath : Js.str) :
  encodeSourcePath sourcePath = None <-> isWellFormed sourcePath = false.
Proof.
  unfold encodeSourcePath. rewrite encode_defined_iff_wellFormed.
  destruct (encodeURIComponent sourcePath); cbn; split; congruence.
Qed.



Lemma lor_byte m x : 0 < m -> m < 256 -> x < 256 -> N.lor m x < 256.
Proof.
  intros Hm0 Hm Hx.
  assert (Hpos : 0 < N.lor m x).
  { apply N.neq_0_lt_0. intros E. apply N.lor_eq_0_iff in E. lia. }
  change 256 with (2 ^ 8). apply N.log2_lt_pow2; [exact Hpos|].
  rewrite N.log2_lor. apply N.max_lub_lt.
  - apply N.log2_lt_pow2; [exact Hm0 | exact Hm].
  - destruct (N.eq_dec x 0) as [->|Hx0]; [cbn; lia|].
    apply N.log2_lt_pow2; [lia | exact Hx].
Qed.

Lemma low6_byte x : N.land x 63 < 256.
Proof.
  change 63 with (N.ones 6). rewrite N.land_ones.
  assert (x mod 2 ^ 6 < 2 ^ 6) by (apply N.mod_lt; discriminate).
  change (2 ^ 6) with 64 in *. lia.
Qed.

Lemma shiftr_small cp k bound :
  cp < bound * 2 ^ k -> N.shiftr cp k < bound.
Proof.
  intros H. rewrite N.shiftr_div_pow2.
  apply N.Div0.div_lt_upper_bound. lia.
Qed.

(** The UTF-8 form of a code point consists of octets. *)
Lemma utf8_octets cp : cp < 1114112 -> Forall (fun b => b < 256) (utf8 cp).
Proof.
  intros Hcp. unfold utf8.
  destruct (N.ltb_spec cp 128); [repeat constructor; lia|].
  destruct (N.ltb_spec cp 2048).
  { repeat constructor; apply lor_byte; try lia; try apply low6_byte.
    apply N.lt_trans with 32; [|lia]. apply shiftr_small. cbn. lia. }
  destruct (N.ltb_spec cp 65536).
  { repeat constructor; apply lor_byte; try lia; try apply low6_byte.
    apply N.lt_trans with 16; [|lia]. apply shiftr_small. cbn. lia. }
  repeat constructor; apply lor_byte; try lia; try apply low6_byte.
  apply N.lt_trans with 5; [|lia]. apply shiftr_small. cbn. lia.
Qed.

Lemma hexDigit_upper d : d < 16 -> isUpperHex (hexDigit d) = true.
Proof.
  intros H. assert (E : (N.to_nat d < 16)%nat) by lia.
  rewrite <- (N2Nat.id d). revert E. generalize (N.to_nat d). clear H.
  intros k Hk. do 16 (destruct k as [|k]; [reflexivity|]). lia.
Qed.

Lemma wellEscaped_plain c r :
  plain c = true -> wellEscaped (c :: r) = wellEscaped r.
Proof.
  intros H. cbn [wellEscaped]. rewrite H.
  destruct (N.eqb_spec c 37) as [->|_]; [discriminate H | reflexivity].
Qed.

Lemma wellEscaped_pct b r : b < 256 -> wellEscaped (pct b ++ r) = wellEscaped r.
Proof.
  intros Hb. unfold pct. cbn [app wellEscaped]. rewrite N.eqb_refl.
  rewrite !hexDigit_upper; [reflexivity | |].
  - apply N.mod_lt. discriminate.
  - apply N.Div0.div_lt_upper_bound. lia.
Qed.

Lemma wellEscaped_pctAll bs r :
  Forall (fun b => b < 256) bs -> wellEscaped (pctAll bs ++ r) = wellEscaped r.
Proof.
  induction 1 as [|b bs Hb _ IH]; [reflexivity|].
  unfold pctAll in *. cbn [flat_map]. rewrite <- app_assoc.
  now rewrite wellEscaped_pct, IH.
Qed.

Lemma pairToCodePoint_bound a b :
  isLead a = true -> isTrail b = true -> pairToCodePoint a b < 1114112.
Proof.
  unfold isLead, isTrail, pairToCodePoint. intros Ha Hb.
  apply andb_true_iff in Ha, Hb. destruct Ha as [Ha1 Ha2], Hb as [Hb1 Hb2].
  apply N.leb_le in Ha1, Ha2, Hb1, Hb2. lia.
Qed.

(** One step of the scan keeps the encoded path well escaped. *)
Lemma wellEscaped_step a r :
  a < 65536 ->
  (forall e, encodeSourcePath r = Some e -> wellEscaped e = true) ->
  (forall b l, r = b :: l ->
     forall e, encodeSourcePath l = Some e -> wellEscaped e = true) ->
  forall e, encodeSourcePath (a :: r) = Some e -> wellEscaped e = true.
Proof.
  intros Ha IHr IHl e.
  destruct (N.eq_dec a 47) as [->|Hslash].
  { rewrite UriFacts.sourcePath_slash.
    destruct (encodeSourcePath r) as [e'|]; [|discriminate].
    intros [= <-]. rewrite wellEscaped_plain; [now apply IHr | reflexivity]. }
  destruct (unescaped a) eqn:Hu.
  { change (a :: r) with ([a] ++ r).
    rewrite (UriFacts.sourcePath_chunk [a] [a]).
    - destruct (encodeSourcePath r) as [e'|]; [|discriminate].
      intros [= <-]. cbn [app]. rewrite wellEscaped_plain; [now apply IHr|].
      unfold plain. now rewrite Hu.
    - intros t. cbn. now rewrite Hu.
    - intros x. apply UriFacts.replace_cons. now apply UriFacts.unescaped_not_pct. }
  destruct (isTrail a) eqn:Ht.
  { unfold encodeSourcePath. cbn. rewrite Hu, Ht. discriminate. }
  destruct (isLead a) eqn:Hl.
  - destruct r as [|b l].
    { unfold encodeSourcePath. cbn. rewrite Hu, Ht, Hl. discriminate. }
    destruct (isTrail b) eqn:Hb.
    + change (a :: b :: l) with ([a; b] ++ l).
      rewrite (UriFacts.sourcePath_chunk [a; b]
                 (pctAll (utf8 (pairToCodePoint a b)))).
      * destruct (encodeSourcePath l) as [e'|] eqn:E; [|discriminate].
        intros [= <-]. rewrite wellEscaped_pctAll; [now apply (IHl b l eq_refl)|].
        apply utf8_octets. now apply pairToCodePoint_bound.
      * intros t. cbn. now rewrite Hu, Ht, Hl, Hb.
      * intros x. apply UriFacts.replace_pctAll, UriFacts.utf8_no_slash,
          UriFacts.pairToCodePoint_not_slash.
    + unfold encodeSourcePath. cbn. rewrite Hu, Ht, Hl, Hb. discriminate.
  - change (a :: r) with ([a] ++ r).
    rewrite (UriFacts.sourcePath_chunk [a] (pctAll (utf8 a))).
    + destruct (encodeSourcePath r) as [e'|]; [|discriminate].
      intros [= <-]. rewrite wellEscaped_pctAll; [now apply IHr|].
      apply utf8_octets. lia.
    + intros t. cbn. now rewrite Hu, Ht, Hl.
    + intros x. now apply UriFacts.replace_pctAll, UriFacts.utf8_no_slash.
Qed.

(** X3.  Whatever the characters of the path, the encoded source path is
    made of unreserved characters, [/] and percent escapes, each [%] being
    followed by two upper-case hexadecimal digits. *)
Theorem encodeSourcePath_urlSafe (sourcePath encoded : Js.str) :
  Forall (fun c => c < 65536) sourcePath ->
  encodeSourcePath sourcePath = Some encoded ->
  wellEscaped encoded = true.
Proof.
  revert encoded.
  induction sourcePath as [|a|a b l IHl IHbl] using UriFacts.pair_ind;
    intros encoded Hs.
  - intros [= <-]. reflexivity.
  - inversion Hs as [|? ? Ha _]; subst.
    apply wellEscaped_step; [exact Ha | now intros e [= <-] | discriminate].
  - inversion Hs as [|? ? Ha Hbl]; subst.
    inversion Hbl as [|? ? Hb Hl]; subst.
    apply wellEscaped_step; [exact Ha | |].
    + intros e. now apply IHbl.
    + intros b' l' [= <- <-] e. now apply IHl.
Qed.

End UriMore.

(** ** The timestamp of the folder *)

Module DateMore.
Import Date.

Lemma replaced_noColonPeriod s :
  forallb noColonPeriod (replace_colon_period s) = true.
Proof.
  induction s as [|c s IH]; [reflexivity|].
  cbn [replace_colon_period map forallb]. fold (replace_colon_period s).
  rewrite IH, andb_true_r. unfold noColonPeriod.
  destruct ((c =? 58) || (c =? 46)) eqn:E; [reflexivity|]. now rewrite E.
Qed.

Lemma forallb_firstn {A} (f : A -> bool) n : forall l,
  forallb f l = true -> forallb f (firstn n l) = true.
Proof.
  induction n as [|n IH]; intros [|a l] H; try reflexivity.
  cbn in H |- *. apply andb_true_iff in H. destruct H as [Ha Hl].
  now rewrite Ha, IH.
Qed.

Lemma yearString_length y :
  (4 <= List.length (yearString y))%nat.
Proof. unfold yearString. destruct ((0 <=? y)%Z && (y <=? 9999)%Z); cbn; lia. Qed.

(** Whatever the time, the timestamp has 19 characters, none of them a
    colon or a period. *)
Lemma timestamp_shape t :
  List.length (timestamp t) = 19%nat
  /\ forallb noColonPeriod (timestamp t) = true.
Proof.
  unfold timestamp, Js.slice0. split.
  - rewrite length_firstn. unfold replace_colon_period. rewrite length_map.
    unfold toISOString. rewrite !length_app.
    pose proof (yearString_length (year t)). cbn [List.length pad2 pad3]. lia.
  - apply forallb_firstn, replaced_noColonPeriod.
Qed.

(** Outside the years 0 to 9999 the 19 characters end with the minutes. *)
Lemma timestamp_expanded_year t :
  (year t < 0 \/ 9999 < year t)%Z ->
  timestamp t
  = (if (year t <? 0)%Z then 45 else 43) :: pad6 (Z.abs_N (year t))
    ++ [45] ++ pad2 (month t) ++ [45] ++ pad2 (day t)
    ++ [84] ++ pad2 (hours t) ++ [45] ++ pad2 (minutes t).
Proof.
  intros Hy. unfold timestamp, toISOString, yearString.
  replace ((0 <=? year t)%Z && (year t <=? 9999)%Z) with false.
  2:{ symmetry. apply andb_false_iff.
      destruct Hy; [left; apply Z.leb_gt | right; apply Z.leb_gt]; lia. }
  unfold pad6, pad4, pad3, pad2, Js.slice0, replace_colon_period.
  cbn [app map firstn]. rewrite !DateFacts.digit_kept.
  now destruct (year t <? 0)%Z.
Qed.

End DateMore.

(** ** The client operations *)

Section ClientMore.

Context {World : Type} (env : Env World).

Lemma daFetch_throws token endpoint options (w : World) res w' :
  fetch env (requestOf token endpoint options) w = (Normal res, w') ->
  ok res = false ->
  Run.daFetch env token endpoint options w
  = Run.Out (Throw (apiError res)) w'
      [Fetch (requestOf token endpoint options); Warning (apiError res)].
Proof.
  intros Hf Hok. unfold Run.daFetch, Run.bind, Run.doFetch.
  change (fetch env _ w) with (fetch env (requestOf token endpoint options) w).
  rewrite Hf, Hok. reflexivity.
Qed.

(** X4.  A response that is not ok makes [daFetch] log the status and the
    body as a warning and throw an error with the same text, whatever the
    content type; the one request is all that was sent. *)
Theorem daFetch_not_ok token endpoint options (w : World) res w' :
  fetch env (requestOf token endpoint options) w = (Normal res, w') ->
  (status res < 200 \/ 299 < status res) ->
  Run.daFetch env token endpoint options w
  = Run.Out (Throw (apiError res)) w'
      [Fetch (requestOf token endpoint options); Warning (apiError res)].
Proof.
  intros Hf Hs. apply daFetch_throws; [exact Hf|].
  unfold ok. apply andb_false_iff.
  destruct Hs; [left; apply N.leb_gt | right; apply N.leb_gt]; lia.
Qed.

(** The trace of a folder creation, whether or not it succeeds. *)
Lemma createBackupFolder_trace token org repo parentPath (w : World) :
  let o := Run.createBackupFolder env token org repo parentPath w in
  let bp := folderPathAt (now env w) parentPath in
  exists tl,
    Run.events o = Enter (OpCreateFolder org repo parentPath) :: tl
    /\ quiet tl
    /\ fetches tl = [requestOf token (folderEndpoint org repo bp) folderOptions]
    /\ (forall backup, Run.result o = Normal backup ->
        backup = {| backupName := folderNameAt (now env w); backupPath := bp |}).
Proof.
  unfold Run.createBackupFolder. rewrite bind_emit. unfold Run.clock.
  rewrite (bind_outcome _ _ w (Normal (now env w)) w [] eq_refl).
  fold (folderNameAt (now env w)). fold (folderPathAt (now env w) parentPath).
  fold (folderEndpoint org repo (folderPathAt (now env w) parentPath)).
  fold folderOptions.
  set (bp := folderPathAt (now env w) parentPath).
  destruct (daFetch_events env token (folderEndpoint org repo bp) folderOptions w)
    as (F & (Q1 & Q2 & Q3 & Q4) & _).
  destruct (Run.daFetch env token (folderEndpoint org repo bp) folderOptions w)
    as [[v|msg] w1 evF] eqn:ED;
    rewrite (bind_outcome _ _ _ _ _ _ ED); cbn in F, Q1, Q2, Q3, Q4.
  - unfold Run.info. rewrite bind_emit. unfold Run.ret, Run.prepend. cbn.
    eexists. split; [reflexivity|]. unfold quiet. split_trace.
    rewrite F, Q1, Q2, Q3, Q4. repeat split. now intros backup [= <-].
  - unfold Run.prepend. cbn. exists evF. unfold quiet.
    repeat split; try assumption. discriminate.
Qed.

(** X5.  A path that is not well-formed UTF-16 never reaches the
    transport: [moveSource] throws the [URIError] before any request, the
    loop logs the failed move and goes on with the counter as it was. *)
Theorem moveStep_ill_formed_path token org repo backup source c (w : World) :
  eligible source = true ->
  Wf.isWellFormed (toStr (path source)) = false ->
  Run.moveStep env token org repo backup source c w
  = Run.Out (Normal c) w
      [Enter (OpMove (toStr (path source)) (destPath org repo backup source));
       moveFailedWarning backup source (msgURIError env)].
Proof.
  intros Hel Hwf.
  assert (Henc : Uri.encodeSourcePath (toStr (path source)) = None).
  { unfold Uri.encodeSourcePath.
    rewrite WfFacts.encode_defined_iff_wellFormed in Hwf.
    now destruct (Uri.encodeURIComponent (toStr (path source))). }
  clear Hwf. rename Henc into Hwf.
  unfold eligible in Hel. apply andb_true_iff in Hel. destruct Hel as [Hr Hm].
  apply negb_true_iff in Hr, Hm.
  unfold Run.moveStep. rewrite Hr, Hm.
  unfold Run.tryCatch, Run.bind at 1, Run.moveSource. rewrite bind_emit, Hwf.
  reflexivity.
Qed.

Lemma moveStep_204 token org repo backup source c (w : World)
    encoded res w' :
  eligible source = true ->
  Uri.encodeSourcePath (toStr (path source)) = Some encoded ->
  let dest := destPath org repo backup source in
  let req := requestOf token (Js.lit "/move" ++ encoded) (moveOptions dest) in
  fetch env req w = (Normal res, w') ->
  status res = 204 ->
  Run.moveStep env token org repo backup source c w
  = Run.Out (Normal (S c)) w'
      [Enter (OpMove (toStr (path source)) dest); Fetch req;
       Info (Js.lit "Moved " ++ toStr (path source) ++ Js.lit " to " ++ dest)].
Proof.
  intros Hel Henc dest req Hf Hs.
  unfold eligible in Hel. apply andb_true_iff in Hel. destruct Hel as [Hr Hm].
  apply negb_true_iff in Hr, Hm.
  assert (D : Run.daFetch env token (Js.lit "/move" ++ encoded) (moveOptions dest) w
              = Run.Out (Normal VNull) w' [Fetch req]).
  { unfold Run.daFetch, Run.bind, Run.doFetch.
    change (fetch env _ w) with (fetch env req w). rewrite Hf.
    unfold ok. rewrite Hs. reflexivity. }
  unfold Run.moveStep. rewrite Hr, Hm. fold dest.
  unfold Run.tryCatch, Run.bind at 1, Run.moveSource. rewrite bind_emit, Henc.
  fold (moveOptions dest). rewrite (bind_outcome _ _ _ _ _ _ D).
  reflexivity.
Qed.

(** X6.  A move the server accepts is logged and counted: when the
    answer is ok and is [204], or does not announce JSON, or is JSON that
    parses, the loop has sent one [POST] whose form field [destination] is
    the destination as [append] stores it (lone surrogates replaced by
    U+FFFD), logs the move and the counter goes up by one. *)
Theorem moveStep_moved token org repo backup source c (w : World)
    encoded res w' :
  eligible source = true ->
  Uri.encodeSourcePath (toStr (path source)) = Some encoded ->
  let dest := destPath org repo backup source in
  let req := requestOf token (Js.lit "/move" ++ encoded) (moveOptions dest) in
  fetch env req w = (Normal res, w') ->
  200 <= status res <= 299 ->
  status res = 204 \/ saysJson res = false \/ json res <> None ->
  Run.moveStep env token org repo backup source c w
  = Run.Out (Normal (S c)) w'
      [Enter (OpMove (toStr (path source)) dest); Fetch req;
       Info (Js.lit "Moved " ++ toStr (path source) ++ Js.lit " to " ++ dest)]
  /\ method req = Some POST
  /\ body req = Some [(Js.lit "destination", WebIdl.toUSVString dest)].
Proof.
  intros Hel Henc dest req Hf Hs Hbody.
  split; [|split; reflexivity].
  unfold eligible in Hel. apply andb_true_iff in Hel. destruct Hel as [Hr Hm].
  apply negb_true_iff in Hr, Hm.
  assert (D : exists v,
             Run.daFetch env token (Js.lit "/move" ++ encoded) (moveOptions dest) w
             = Run.Out (Normal v) w' [Fetch req]).
  { unfold Run.daFetch, Run.bind, Run.doFetch.
    change (fetch env _ w) with (fetch env req w). rewrite Hf. unfold ok.
    replace (200 <=? status res) with true by (symmetry; apply N.leb_le; lia).
    replace (status res <=? 299) with true by (symmetry; apply N.leb_le; lia).
    cbn [andb negb]. unfold saysJson in Hbody.
    destruct (status res =? 204) eqn:E204; [eexists; reflexivity|].
    apply N.eqb_neq in E204.
    destruct (match contentType res with Some _ => _ | None => _ end);
      [|eexists; reflexivity].
    destruct (json res) as [v|]; [eexists; reflexivity|].
    destruct Hbody as [H|[H|H]]; [contradiction | discriminate | contradiction]. }
  destruct D as (v & D).
  unfold Run.moveStep. rewrite Hr, Hm. fold dest.
  unfold Run.tryCatch, Run.bind at 1, Run.moveSource. rewrite bind_emit, Henc.
  fold (moveOptions dest). rewrite (bind_outcome _ _ _ _ _ _ D).
  reflexivity.
Qed.

(** X7.  A move the server refuses is logged with the server's answer and
    not counted; the loop itself does not fail.  The request that was
    refused is the [POST] whose form field [destination] is the destination
    as [append] stores it (lone surrogates replaced by U+FFFD). *)
Theorem moveStep_refused token org repo backup source c (w : World)
    encoded res w' :
  eligible source = true ->
  Uri.encodeSourcePath (toStr (path source)) = Some encoded ->
  let dest := destPath org repo backup source in
  let req := requestOf token (Js.lit "/move" ++ encoded) (moveOptions dest) in
  fetch env req w = (Normal res, w') ->
  ok res = false ->
  Run.moveStep env token org repo backup source c w
  = Run.Out (Normal c) w'
      [Enter (OpMove (toStr (path source)) dest); Fetch req;
       Warning (apiError res);
       moveFailedWarning backup source (apiError res)]
  /\ method req = Some POST
  /\ body req = Some [(Js.lit "destination", WebIdl.toUSVString dest)].
Proof.
  intros Hel Henc dest req Hf Hok.
  split; [|split; reflexivity].
  unfold eligible in Hel. apply andb_true_iff in Hel. destruct Hel as [Hr Hm].
  apply negb_true_iff in Hr, Hm.
  pose proof (daFetch_throws token (Js.lit "/move" ++ encoded) (moveOptions dest)
                w res w' Hf Hok) as D.
  unfold Run.moveStep. rewrite Hr, Hm. fold dest.
  unfold Run.tryCatch, Run.bind at 1, Run.moveSource. rewrite bind_emit, Henc.
  fold (moveOptions dest). rewrite (bind_outcome _ _ _ _ _ _ D).
  reflexivity.
Qed.

Lemma moveStep_ineligible token org repo backup source c (w : World) :
  eligible source = false ->
  Run.result (Run.moveStep env token org repo backup source c w) = Normal c
  /\ Run.after (Run.moveStep env token org repo backup source c w) = w.
Proof.
  unfold eligible, Run.moveStep. intros H.
  destruct (isReserved source); [split; reflexivity|].
  destruct (missingRequired source); [split; reflexivity | discriminate H].
Qed.

Lemma successfulMoves_bound token org repo backup sources : forall (w : World),
  (successfulMoves env token org repo backup sources w
   <= List.length (filter eligible sources))%nat.
Proof.
  induction sources as [|source rest IH]; intros w; [cbn; lia|].
  cbn [successfulMoves filter].
  specialize (IH (Run.after (Run.moveStep env token org repo backup source 0 w))).
  destruct (eligible source); cbn [List.length].
  - destruct (Run.result (Run.moveSource env token (toStr (path source))
                            (destPath org repo backup source) w)); lia.
  - lia.
Qed.

Lemma filter_length_le {A} (f : A -> bool) l :
  (List.length (filter f l) <= List.length l)%nat.
Proof. induction l as [|a l IH]; cbn; [lia|]. destruct (f a); cbn; lia. Qed.

(** X8.  The counter of the loop never runs ahead of the listing: the loop
    ends without an error and adds to the counter at most the number of
    eligible sources, so at most the number of listed items. *)
Theorem moveLoop_count_bounded token org repo backup sources c (w : World) :
  exists moved,
    Run.result (Run.moveLoop env token org repo backup sources c w)
    = Normal (c + moved)%nat
    /\ (moved <= List.length (filter eligible sources) <= List.length sources)%nat.
Proof.
  exists (successfulMoves env token org repo backup sources w). split.
  - apply (moveLoop_spec env token org repo backup sources c w).
  - split; [apply successfulMoves_bound | apply filter_length_le].
Qed.

(** X9.  When the transport answers every request with [204] and the
    paths are well-formed, every eligible source is moved: the counter
    grows by their number. *)
Theorem moveLoop_all_moved token org repo backup sources c (w : World) :
  (forall req w0, exists res w1,
      fetch env req w0 = (Normal res, w1) /\ status res = 204) ->
  forallb (fun source => Wf.isWellFormed (toStr (path source)))
    (filter eligible sources) = true ->
  Run.result (Run.moveLoop env token org repo backup sources c w)
  = Normal (c + List.length (filter eligible sources))%nat.
Proof.
  intros Hall. revert c w.
  induction sources as [|source rest IH]; intros c w Hwf.
  { cbn. now rewrite Nat.add_0_r. }
  cbn [Run.moveLoop filter] in *. unfold Run.bind.
  destruct (eligible source) eqn:Hel.
  - cbn [forallb] in Hwf. apply andb_true_iff in Hwf. destruct Hwf as [Hs Hrest].
    rewrite WfFacts.encode_defined_iff_wellFormed in Hs.
    assert (Henc : exists encoded,
               Uri.encodeSourcePath (toStr (path source)) = Some encoded).
    { unfold Uri.encodeSourcePath.
      destruct (Uri.encodeURIComponent (toStr (path source)));
        [eexists; reflexivity | discriminate]. }
    destruct Henc as (encoded & Henc).
    destruct (Hall (requestOf token (Js.lit "/move" ++ encoded)
                      (moveOptions (destPath org repo backup source))) w)
      as (res & w1 & Hf & H204).
    rewrite (moveStep_204 token org repo backup source c w encoded res w1
               Hel Henc Hf H204).
    unfold Run.prepend. cbn [Run.result]. rewrite (IH (S c) w1 Hrest).
    cbn [List.length]. f_equal. lia.
  - destruct (moveStep_ineligible token org repo backup source c w Hel) as (R & A).
    destruct (Run.moveStep env token org repo backup source c w) as [r w' evs].
    cbn in R, A. subst r w'. unfold Run.prepend. cbn [Run.result].
    apply (IH c w Hwf).
Qed.

Lemma moveLoop_none_eligible token org repo backup sources : forall c (w : World),
  filter eligible sources = [] ->
  Run.after (Run.moveLoop env token org repo backup sources c w) = w
  /\ successfulMoves env token org repo backup sources w = 0%nat.
Proof.
  induction sources as [|source rest IH]; intros c w H; [split; reflexivity|].
  cbn [filter] in H. destruct (eligible source) eqn:Hel; [discriminate H|].
  cbn [Run.moveLoop successfulMoves]. rewrite Hel. unfold Run.bind.
  destruct (moveStep_ineligible token org repo backup source 0%nat w Hel) as (_ & A0).
  destruct (moveStep_ineligible token org repo backup source c w Hel) as (R & A).
  destruct (Run.moveStep env token org repo backup source c w) as [r w' evs].
  cbn in R, A. subst r w'. unfold Run.prepend. cbn [Run.after].
  rewrite A0. destruct (IH c w H) as (IA & IS). now rewrite IA, IS.
Qed.

(** X10.  A folder that is created has a name of 26 characters,
    [backup-] and 19 more, none of them a colon or a period, whatever the
    clock says. *)
Theorem backup_folder_name_shape token org repo parentPath (w : World)
    backup w' evs :
  Run.createBackupFolder env token org repo parentPath w
  = Run.Out (Normal backup) w' evs ->
  List.length (backupName backup) = 26%nat
  /\ forallb noColonPeriod (backupName backup) = true
  /\ Js.startsWith (Js.lit "backup-") (backupName backup) = true.
Proof.
  intros E.
  destruct (createBackupFolder_normal env token org repo parentPath w backup w' evs E)
    as (Hn & _).
  destruct (DateMore.timestamp_shape (now env w)) as (Hlen & Hchars).
  rewrite Hn. rewrite length_app, Hlen, forallb_app, Hchars.
  repeat split.
Qed.

(** X11.  With a clock outside the years 0 to 9999 the folder name keeps
    the sign and six digits of the year and stops at the minutes: the
    seconds are cut off. *)
Theorem backup_folder_name_expanded_year token org repo parentPath (w : World)
    backup w' evs :
  Run.createBackupFolder env token org repo parentPath w
  = Run.Out (Normal backup) w' evs ->
  let t := now env w in
  (Date.year t < 0 \/ 9999 < Date.year t)%Z ->
  backupName backup
  = Js.lit "backup-"
    ++ (if (Date.year t <? 0)%Z then 45 else 43)
    :: Date.pad6 (Z.abs_N (Date.year t))
    ++ [45] ++ Date.pad2 (Date.month t) ++ [45] ++ Date.pad2 (Date.day t)
    ++ [84] ++ Date.pad2 (Date.hours t) ++ [45] ++ Date.pad2 (Date.minutes t).
Proof.
  intros E t Hy.
  destruct (createBackupFolder_normal env token org repo parentPath w backup w' evs E)
    as (Hn & _).
  subst t. rewrite Hn. now rewrite (DateMore.timestamp_expanded_year _ Hy).
Qed.

End ClientMore.

(** ** The run as a whole *)

Section RunMore.

Context {World : Type} (env : Env World).

Lemma truthy_nonempty (s : Js.str) : s <> [] -> Js.truthy s = true.
Proof. now destruct s. Qed.

Lemma run_failure (inputs : Inputs) (w : World) m w' evs :
  Run.runBody env inputs w = Run.Out (Throw m) w' evs ->
  Run.run env inputs w = Run.Out (Normal tt) w' (evs ++ failureTrace m).
Proof. intros E. now rewrite run_handler, E. Qed.

Lemma runBody_invalid (inputs : Inputs) (w : World) :
  Js.truthy (Js.trim (in_org inputs)) = false
  \/ Js.truthy (Js.trim (in_repo inputs)) = false ->
  Run.runBody env inputs w
  = Run.Out (Throw (Js.lit "Both org and repo inputs are required")) w [].
Proof.
  intros H. unfold Run.runBody.
  destruct H as [H|H]; rewrite H; cbn [negb orb]; [reflexivity|].
  now rewrite orb_true_r.
Qed.

(** The [try] block when the helper gives no usable token. *)
Lemma runBody_no_token (inputs : Inputs) (w : World) r w1 :
  Js.truthy (Js.trim (in_org inputs)) = true ->
  Js.truthy (Js.trim (in_repo inputs)) = true ->
  getAccessTokenWithFallback env w = (r, w1) ->
  match r with Normal t => Js.truthy_opt t = false | Throw _ => True end ->
  Run.runBody env inputs w
  = Run.Out (Throw match r with
                   | Normal _ => noTokenMessage
                   | Throw m => m
                   end) w1 [startInfo inputs; TokenRequested].
Proof.
  intros Horg Hrepo Htok Hr. unfold Run.runBody.
  rewrite Horg, Hrepo. cbn [negb orb]. unfold Run.info. rewrite bind_emit.
  rewrite (bind_outcome (Run.requestToken env) _ w r w1 [TokenRequested])
    by (unfold Run.requestToken; now rewrite Htok).
  destruct r as [t|m]; [rewrite Hr|]; reflexivity.
Qed.

(** Every run, by what it sent, entered and reported. *)
Lemma run_summary (inputs : Inputs) (w : World) :
  let org := Js.trim (in_org inputs) in
  let repo := Js.trim (in_repo inputs) in
  let dir := Js.trim (in_path inputs) in
  let o := Run.run env inputs w in
  let evs := Run.events o in
  let failed := exists m, outputs evs = [errorOutput m] /\ failures evs = [m] in
  Run.result o = Normal tt
  /\ ((fetches evs = [] /\ moveCalls evs = [] /\ folderCalls evs = 0%nat
       /\ failed)
      \/ exists token w1,
           getAccessTokenWithFallback env w = (Normal (Some token), w1)
           /\ Js.truthy token = true
           /\ ((fetches evs = [listRequest token org repo dir]
                /\ moveCalls evs = [] /\ folderCalls evs = 0%nat
                /\ (failed
                    \/ (outputs evs = [(Js.lit "backup_folder_name",
                                        Js.lit "no-backup-needed")]
                        /\ failures evs = [])))
               \/ exists sources w2 evL,
                    Run.listSources env token org repo dir w1
                    = Run.Out (Normal sources) w2 evL
                    /\ sources <> []
                    /\ folderCalls evs = 1%nat
                    /\ let bp := folderPathAt (now env w2) dir in
                       let backup := {| backupName := folderNameAt (now env w2);
                                        backupPath := bp |} in
                       (fetches evs = [listRequest token org repo dir;
                                       folderRequest token org repo bp]
                        /\ moveCalls evs = [] /\ failed)
                       \/ (fetches evs
                           = listRequest token org repo dir
                             :: folderRequest token org repo bp
                             :: flat_map (moveRequests token org repo backup)
                                  (filter eligible sources)
                           /\ moveCalls evs
                              = map (moveArgs org repo backup)
                                  (filter eligible sources)
                           /\ outputs evs = [(Js.lit "backup_folder_name",
                                              backupName backup)]
                           /\ failures evs = []))).
Proof.
  intros org repo dir o evs failed. unfold failed, evs, o. clear failed evs o.
  destruct (Js.truthy org) eqn:Horg.
  2:{ rewrite (run_failure inputs w _ _ _ (runBody_invalid inputs w (or_introl Horg))).
      split; [reflexivity|]. left. repeat split. eexists. split; reflexivity. }
  destruct (Js.truthy repo) eqn:Hrepo.
  2:{ rewrite (run_failure inputs w _ _ _ (runBody_invalid inputs w (or_intror Hrepo))).
      split; [reflexivity|]. left. repeat split. eexists. split; reflexivity. }
  destruct (getAccessTokenWithFallback env w) as [r w1] eqn:Htok.
  assert (Hno : match r with Normal t => Js.truthy_opt t = false | Throw _ => True end ->
                Run.result (Run.run env inputs w) = Normal tt
                /\ fetches (Run.events (Run.run env inputs w)) = []
                /\ moveCalls (Run.events (Run.run env inputs w)) = []
                /\ folderCalls (Run.events (Run.run env inputs w)) = 0%nat
                /\ exists m, outputs (Run.events (Run.run env inputs w)) = [errorOutput m]
                             /\ failures (Run.events (Run.run env inputs w)) = [m]).
  { intros Hr.
    rewrite (run_failure inputs w _ _ _
               (runBody_no_token inputs w r w1 Horg Hrepo Htok Hr)).
    repeat split. eexists. split; reflexivity. }
  destruct r as [[token|]|m];
    [destruct (Js.truthy token) eqn:Htruthy| |];
    try (destruct Hno as (R & F & M & Fo & Fa);
         [solve [exact I | reflexivity | exact Htruthy]
         | split; [exact R | left; auto]]).
  clear Hno. split.
  { rewrite run_handler. now destruct (Run.runBody env inputs w) as [[[]|?] ? ?]. }
  right. exists token, w1. split; [reflexivity|]. split; [exact Htruthy|].
  pose proof (runBody_authenticated env inputs w token w1 Horg Hrepo Htok Htruthy)
    as B.
  cbv zeta in B. fold org repo dir in B.
  destruct (listSources_events env token org repo dir w1)
    as (tlL & EL & (L1 & L2 & L3 & L4) & L5 & LN).
  destruct (Run.listSources env token org repo dir w1)
    as [[sources|m] w2 evL] eqn:HL; cbn in EL, LN; subst evL.
  2:{ left. rewrite (run_failure inputs w _ _ _ B). cbn [Run.events].
      cbn. split_trace. rewrite L1, L2, L3, L4, L5.
      repeat split. left. eexists. split; reflexivity. }
  destruct (logSources_events env sources 0%nat w2)
    as (_ & _ & (G1 & G2 & G3 & G4) & G5).
  remember (Run.events (Run.logSources env 0 sources w2)) as evLog.
  destruct sources as [|source rest].
  { left. rewrite run_handler, B. unfold Run.prepend. cbn.
    split_trace. cbn. split_trace. rewrite L1, L2, L3, L4, L5, G1, G2, G3, G4, G5.
    repeat split. right. split; reflexivity. }
  right. exists (source :: rest), w2, (Enter (OpList org repo dir) :: tlL).
  split; [reflexivity|]. split; [discriminate|].
  destruct (createBackupFolder_trace env token org repo dir w2)
    as (tlC & EC & (C1 & C2 & C3 & C4) & C5 & CN).
  destruct (Run.createBackupFolder env token org repo dir w2)
    as [[backup|m] w3 evC] eqn:HC; cbn in EC, CN; subst evC.
  - specialize (CN backup eq_refl). subst backup.
    set (backup := {| backupName := folderNameAt (now env w2);
                      backupPath := folderPathAt (now env w2) dir |}) in *.
    destruct (moveLoop_spec env token org repo backup (source :: rest) 0%nat w3)
      as (_ & Mv & Fo & Ou & Fa).
    pose proof (moveLoop_fetches env token org repo backup (source :: rest) 0%nat w3)
      as Fe.
    remember (Run.moveLoop env token org repo backup (source :: rest) 0 w3) as l.
    rewrite run_handler, B. unfold Run.prepend. cbn [Run.events Run.result Run.after].
    cbn. split_trace. cbn. split_trace. cbn. split_trace.
    rewrite L1, L2, L3, L4, L5, G1, G2, G3, G4, G5, C1, C2, C3, C4, C5,
      Mv, Fo, Ou, Fa, Fe.
    cbn. rewrite !app_nil_r. split; [reflexivity|]. right. repeat split.
  - rewrite (run_failure inputs w m w3
               ((startInfo inputs :: TokenRequested :: Enter (OpList org repo dir) :: tlL
                 ++ foundInfo (source :: rest) :: Info (Js.lit "Sources found:")
                 :: evLog) ++ Enter (OpCreateFolder org repo dir) :: tlC)).
    2:{ rewrite B. unfold Run.prepend. reflexivity. }
    cbn [Run.events]. cbn. split_trace. cbn. split_trace. cbn. split_trace.
    rewrite L1, L2, L3, L4, L5, G1, G2, G3, G4, G5, C1, C2, C3, C4, C5.
    cbn. split; [reflexivity|]. left. repeat split. eexists. split; reflexivity.
Qed.

(** X12.  Every run ends without throwing and reports exactly once:
    either the one output is [backup_folder_name] and the run is not marked
    failed, or the one output is [error_message], the failure mark followed
    by the message of the error, and the run is marked failed once with
    that message. *)
Theorem run_reports_once (inputs : Inputs) (w : World) :
  let o := Run.run env inputs w in
  Run.result o = Normal tt
  /\ ((exists folder,
         outputs (Run.events o) = [(Js.lit "backup_folder_name", folder)]
         /\ failures (Run.events o) = [])
      \/ (exists m,
            outputs (Run.events o)
            = [(Js.lit "error_message", Run.failureMark ++ m)]
            /\ failures (Run.events o) = [m])).
Proof.
  destruct (run_summary inputs w) as (R & S). cbv zeta in S |- *.
  split; [exact R|].
  destruct S as [(_ & _ & _ & F)|(token & w1 & _ & _ & S)]; [now right|].
  destruct S as [(_ & _ & _ & [F|(O & F)])|(sources & w2 & evL & _ & _ & _ & S)].
  - now right.
  - left. eauto.
  - destruct S as [(_ & _ & F)|(_ & _ & O & F)]; [now right|]. left. eauto.
Qed.

(** X13.  The requests of a run come in one order: none at all, or the
    [GET] of the listing alone, or the listing, then one folder creation,
    then nothing but moves.  A run enters the folder creation at most
    once, and enters no move unless it entered the folder creation. *)
Theorem run_request_order (inputs : Inputs) (w : World) :
  let org := Js.trim (in_org inputs) in
  let repo := Js.trim (in_repo inputs) in
  let dir := Js.trim (in_path inputs) in
  let evs := Run.events (Run.run env inputs w) in
  (fetches evs = []
   \/ exists token,
        fetches evs = [listRequest token org repo dir]
        \/ exists backupPath moves,
             fetches evs
             = listRequest token org repo dir
               :: folderRequest token org repo backupPath :: moves
             /\ Forall (isMoveRequest token) moves)
  /\ (folderCalls evs <= 1)%nat
  /\ (folderCalls evs = 0%nat -> moveCalls evs = []).
Proof.
  destruct (run_summary inputs w) as (_ & S). cbv zeta in S |- *.
  destruct S as [(F & M & Fo & _)|(token & w1 & _ & _ & S)].
  { rewrite F, M, Fo. repeat split; auto. }
  destruct S as [(F & M & Fo & _)|(sources & w2 & evL & _ & _ & Fo & S)].
  { rewrite F, M, Fo. repeat split; eauto. }
  rewrite Fo. split; [|split; [lia | discriminate]].
  right. exists token. right.
  destruct S as [(F & _)|(F & _)]; rewrite F.
  - eexists _, []. split; [reflexivity | constructor].
  - eexists _, _. split; [reflexivity|]. apply moveRequests_are_moves.
Qed.

Lemma startsWith_app p x : Js.startsWith p (p ++ x) = true.
Proof. induction p as [|a p IH]; [reflexivity|]. cbn. now rewrite N.eqb_refl. Qed.

Lemma requestOf_headers token endpoint options :
  let req := requestOf token endpoint options in
  Js.startsWith DA_ADMIN_API (url req) = true
  /\ In (Js.lit "Authorization", Js.lit "Bearer " ++ token) (headers req)
  /\ In (Js.lit "Accept", Js.lit "application/json") (headers req)
  /\ (In (Js.lit "Content-Type", Js.lit "application/json") (headers req)
      <-> body req = None).
Proof.
  unfold requestOf. cbn [url headers body]. split; [apply startsWith_app|].
  split; [now left|]. split; [right; now left|].
  destruct (opt_body options) as [form|]; cbn [app]; split.
  - intros [H|[H|[]]]; apply (f_equal fst) in H; vm_compute in H; discriminate H.
  - discriminate.
  - reflexivity.
  - intros _. right. right. now left.
Qed.

(** X14.  No request leaves without the token, and none leaves for
    another host: the URL of every request of a run is
    [https://admin.da.live/] followed by the rest of the path, and the
    request carries [Authorization: Bearer] with the non-empty token the
    helper returned in this run and [Accept: application/json], and has
    [Content-Type: application/json] exactly when it has no form body. *)
Theorem run_requests_authenticated (inputs : Inputs) (w : World) req :
  In req (fetches (Run.events (Run.run env inputs w))) ->
  exists token w1 rest,
    getAccessTokenWithFallback env w = (Normal (Some token), w1)
    /\ token <> []
    /\ url req = Js.lit "https://admin.da.live/" ++ rest
    /\ In (Js.lit "Authorization", Js.lit "Bearer " ++ token) (headers req)
    /\ In (Js.lit "Accept", Js.lit "application/json") (headers req)
    /\ (In (Js.lit "Content-Type", Js.lit "application/json") (headers req)
        <-> body req = None).
Proof.
  intros Hin.
  destruct (run_summary inputs w) as (_ & S). cbv zeta in S.
  destruct S as [(F & _)|(token & w1 & Htok & Htruthy & S)].
  { rewrite F in Hin. contradiction. }
  set (org := Js.trim (in_org inputs)) in *.
  set (repo := Js.trim (in_repo inputs)) in *.
  set (dir := Js.trim (in_path inputs)) in *.
  assert (Hlist : listRequest token org repo dir
                  = requestOf token
                      ([47] ++ Js.lit "list/" ++ org ++ [47] ++ repo ++ [47] ++ dir)
                      Run.noOptions) by reflexivity.
  assert (Hfolder : forall bp,
             folderRequest token org repo bp
             = requestOf token
                 ([47] ++ Js.lit "source/" ++ org ++ [47] ++ repo ++ [47] ++ bp)
                 folderOptions) by reflexivity.
  assert (H : exists rest options, req = requestOf token ([47] ++ rest) options).
  { destruct S as [(F & _)|(sources & w2 & evL & _ & _ & _ & S)].
    - rewrite F in Hin. destruct Hin as [<-|[]]. rewrite Hlist. eauto.
    - destruct S as [(F & _)|(F & _)]; rewrite F in Hin.
      + destruct Hin as [<-|[<-|[]]]; [rewrite Hlist | rewrite Hfolder]; eauto.
      + destruct Hin as [<-|[<-|Hin]];
          [rewrite Hlist; eauto | rewrite Hfolder; eauto|].
        pose proof (moveRequests_are_moves token org repo
                      {| backupName := folderNameAt (now env w2);
                         backupPath := folderPathAt (now env w2) dir |}
                      (filter eligible sources)) as Hm.
        rewrite Forall_forall in Hm. destruct (Hm req Hin) as (e & d & ->).
        exists (Js.lit "move" ++ e), (moveOptions d). reflexivity. }
  destruct H as (rest & options & ->).
  exists token, w1, rest. split; [exact Htok|].
  split; [now destruct token|]. split; [reflexivity|].
  apply (requestOf_headers token ([47] ++ rest) options).
Qed.

(** X15.  Without a usable token (the helper returns nothing or the empty
    string) the run fails with the configuration message right after asking
    for the token: nothing is sent. *)
Theorem run_without_token (inputs : Inputs) (w : World) t w1 :
  Js.trim (in_org inputs) <> [] ->
  Js.trim (in_repo inputs) <> [] ->
  getAccessTokenWithFallback env w = (Normal t, w1) ->
  t = None \/ t = Some [] ->
  Run.run env inputs w
  = Run.Out (Normal tt) w1
      ([startInfo inputs; TokenRequested] ++ failureTrace noTokenMessage).
Proof.
  intros Horg Hrepo Htok Ht.
  apply run_failure.
  apply (runBody_no_token inputs w (Normal t) w1);
    [now destruct (Js.trim (in_org inputs))
    | now destruct (Js.trim (in_repo inputs)) | exact Htok |].
  now destruct Ht as [->| ->].
Qed.

(** X16.  An error thrown by the credential helper fails the run with the
    helper's message; nothing is sent. *)
Theorem run_token_helper_throws (inputs : Inputs) (w : World) m w1 :
  Js.trim (in_org inputs) <> [] ->
  Js.trim (in_repo inputs) <> [] ->
  getAccessTokenWithFallback env w = (Throw m, w1) ->
  Run.run env inputs w
  = Run.Out (Normal tt) w1
      ([startInfo inputs; TokenRequested] ++ failureTrace m).
Proof.
  intros Horg Hrepo Htok.
  apply run_failure.
  apply (runBody_no_token inputs w (Throw m) w1);
    [now destruct (Js.trim (in_org inputs))
    | now destruct (Js.trim (in_repo inputs)) | exact Htok | exact I].
Qed.

(** X17.  A listing the server refuses ends the run: the warning of the
    client and the failure report follow the one request, and neither a
    folder creation nor a move is entered. *)
Theorem run_listing_refused (inputs : Inputs) (w : World) token w1 res w2 :
  let org := Js.trim (in_org inputs) in
  let repo := Js.trim (in_repo inputs) in
  let dir := Js.trim (in_path inputs) in
  org <> [] ->
  repo <> [] ->
  getAccessTokenWithFallback env w = (Normal (Some token), w1) ->
  token <> [] ->
  fetch env (listRequest token org repo dir) w1 = (Normal res, w2) ->
  status res < 200 \/ 299 < status res ->
  Run.run env inputs w
  = Run.Out (Normal tt) w2
      ([startInfo inputs; TokenRequested; Enter (OpList org repo dir);
        Fetch (listRequest token org repo dir); Warning (apiError res)]
       ++ failureTrace (apiError res)).
Proof.
  intros org repo dir Horg Hrepo Htok Htruthy Hf Hs.
  assert (Hok : ok res = false).
  { unfold ok. apply andb_false_iff.
    destruct Hs; [left; apply N.leb_gt | right; apply N.leb_gt]; lia. }
  assert (L : Run.listSources env token org repo dir w1
              = Run.Out (Throw (apiError res)) w2
                  [Enter (OpList org repo dir);
                   Fetch (listRequest token org repo dir);
                   Warning (apiError res)]).
  { unfold Run.listSources. rewrite bind_emit.
    fold (listEndpoint org repo dir).
    now rewrite (bind_outcome _ _ _ _ _ _
                   (daFetch_throws env token (listEndpoint org repo dir)
                      Run.noOptions w1 res w2 Hf Hok)). }
  apply run_failure.
  rewrite (runBody_authenticated env inputs w token w1);
    [| now apply truthy_nonempty | now apply truthy_nonempty | exact Htok
     | now apply truthy_nonempty].
  fold org repo dir. now rewrite L.
Qed.

(** X18.  A [2xx] answer to the listing that does not announce JSON is
    read as text, has no [sources], and so counts as an empty listing: the
    run reports [no-backup-needed] and stops, as a success. *)
Theorem run_listing_not_json (inputs : Inputs) (w : World) token w1 res w2 :
  let org := Js.trim (in_org inputs) in
  let repo := Js.trim (in_repo inputs) in
  let dir := Js.trim (in_path inputs) in
  org <> [] ->
  repo <> [] ->
  getAccessTokenWithFallback env w = (Normal (Some token), w1) ->
  token <> [] ->
  fetch env (listRequest token org repo dir) w1 = (Normal res, w2) ->
  200 <= status res <= 299 ->
  status res <> 204 ->
  saysJson res = false ->
  Run.run env inputs w
  = Run.Out (Normal tt) w2
      [startInfo inputs; TokenRequested; Enter (OpList org repo dir);
       Fetch (listRequest token org repo dir);
       foundInfo []; Info (Js.lit "Sources found:");
       Info (Js.lit "No sources found to backup");
       SetOutput (Js.lit "backup_folder_name") (Js.lit "no-backup-needed")].
Proof.
  intros org repo dir Horg Hrepo Htok Htruthy Hf Hs H204 Hjson.
  assert (D : Run.daFetch env token (listEndpoint org repo dir) Run.noOptions w1
              = Run.Out (Normal (VText (text res))) w2
                  [Fetch (listRequest token org repo dir)]).
  { unfold Run.daFetch, Run.bind, Run.doFetch.
    change (fetch env _ w1) with (fetch env (listRequest token org repo dir) w1).
    rewrite Hf. unfold ok.
    replace (200 <=? status res) with true by (symmetry; apply N.leb_le; lia).
    replace (status res <=? 299) with true by (symmetry; apply N.leb_le; lia).
    apply N.eqb_neq in H204. rewrite H204. unfold saysJson in Hjson.
    cbn [andb negb]. rewrite Hjson. reflexivity. }
  assert (L : Run.listSources env token org repo dir w1
              = Run.Out (Normal []) w2
                  [Enter (OpList org repo dir);
                   Fetch (listRequest token org repo dir)]).
  { unfold Run.listSources. rewrite bind_emit.
    fold (listEndpoint org repo dir).
    now rewrite (bind_outcome _ _ _ _ _ _ D). }
  rewrite run_handler, (runBody_authenticated env inputs w token w1);
    [| now apply truthy_nonempty | now apply truthy_nonempty | exact Htok
     | now apply truthy_nonempty].
  fold org repo dir. now rewrite L.
Qed.

(** X19.  A folder creation the server refuses ends the run before the
    loop: the world is the one the refusal left, the requests are the
    listing and the folder creation, no move is entered, and the run is
    failed with the server's answer. *)
Theorem run_folder_refused (inputs : Inputs) (w : World) token w1 sources w2
    evL res w3 :
  let org := Js.trim (in_org inputs) in
  let repo := Js.trim (in_repo inputs) in
  let dir := Js.trim (in_path inputs) in
  let bp := folderPathAt (now env w2) dir in
  org <> [] ->
  repo <> [] ->
  getAccessTokenWithFallback env w = (Normal (Some token), w1) ->
  token <> [] ->
  Run.listSources env token org repo dir w1 = Run.Out (Normal sources) w2 evL ->
  sources <> [] ->
  fetch env (folderRequest token org repo bp) w2 = (Normal res, w3) ->
  status res < 200 \/ 299 < status res ->
  let o := Run.run env inputs w in
  Run.result o = Normal tt
  /\ Run.after o = w3
  /\ fetches (Run.events o)
     = [listRequest token org repo dir; folderRequest token org repo bp]
  /\ moveCalls (Run.events o) = []
  /\ outputs (Run.events o) = [errorOutput (apiError res)]
  /\ failures (Run.events o) = [apiError res].
Proof.
  intros org repo dir bp Horg Hrepo Htok Htruthy HL Hne Hf Hs o.
  assert (Hok : ok res = false).
  { unfold ok. apply andb_false_iff.
    destruct Hs; [left; apply N.leb_gt | right; apply N.leb_gt]; lia. }
  assert (C : Run.createBackupFolder env token org repo dir w2
              = Run.Out (Throw (apiError res)) w3
                  [Enter (OpCreateFolder org repo dir);
                   Fetch (folderRequest token org repo bp);
                   Warning (apiError res)]).
  { unfold Run.createBackupFolder. rewrite bind_emit. unfold Run.clock.
    rewrite (bind_outcome _ _ w2 (Normal (now env w2)) w2 [] eq_refl).
    fold (folderNameAt (now env w2)). fold (folderPathAt (now env w2) dir).
    fold bp. fold (folderEndpoint org repo bp). fold folderOptions.
    now rewrite (bind_outcome _ _ _ _ _ _
                   (daFetch_throws env token (folderEndpoint org repo bp)
                      folderOptions w2 res w3 Hf Hok)). }
  destruct (listSources_events env token org repo dir w1)
    as (tlL & EL & _ & _ & LN).
  rewrite HL in EL, LN. cbn in EL, LN. rewrite (LN sources eq_refl) in EL.
  subst evL.
  destruct (logSources_events env sources 0%nat w2)
    as (_ & _ & (G1 & G2 & G3 & G4) & G5).
  unfold o.
  rewrite (run_failure inputs w (apiError res) w3
             ([startInfo inputs; TokenRequested; Enter (OpList org repo dir);
               Fetch (listRequest token org repo dir);
               foundInfo sources; Info (Js.lit "Sources found:")]
              ++ Run.events (Run.logSources env 0 sources w2)
              ++ [Enter (OpCreateFolder org repo dir);
                  Fetch (folderRequest token org repo bp);
                  Warning (apiError res)])).
  2:{ rewrite (runBody_authenticated env inputs w token w1);
        [| now apply truthy_nonempty | now apply truthy_nonempty | exact Htok
     | now apply truthy_nonempty].
      fold org repo dir. rewrite HL.
      destruct sources as [|source rest]; [contradiction|].
      rewrite C. reflexivity. }
  remember (Run.events (Run.logSources env 0 sources w2)) as evLog.
  cbn [Run.result Run.after Run.events]. split_trace. cbn. split_trace.
  rewrite G1, G3, G4, G5. repeat split.
Qed.

(** X20.  The short cut is for the empty listing only: when the listing
    has items and none is eligible (all reserved or malformed), the folder
    is still created, no move request is sent, and the run reports success
    with zero items moved. *)
Theorem run_nothing_eligible (inputs : Inputs) (w : World) token w1 sources
    w2 evL backup w3 evC :
  let org := Js.trim (in_org inputs) in
  let repo := Js.trim (in_repo inputs) in
  let dir := Js.trim (in_path inputs) in
  org <> [] ->
  repo <> [] ->
  getAccessTokenWithFallback env w = (Normal (Some token), w1) ->
  token <> [] ->
  Run.listSources env token org repo dir w1 = Run.Out (Normal sources) w2 evL ->
  sources <> [] ->
  filter eligible sources = [] ->
  Run.createBackupFolder env token org repo dir w2
  = Run.Out (Normal backup) w3 evC ->
  let o := Run.run env inputs w in
  Run.after o = w3
  /\ fetches (Run.events o)
     = [listRequest token org repo dir;
        folderRequest token org repo (backupPath backup)]
  /\ folderCalls (Run.events o) = 1%nat
  /\ In (completedInfo 0 backup) (Run.events o)
  /\ outputs (Run.events o) = [(Js.lit "backup_folder_name", backupName backup)]
  /\ failures (Run.events o) = [].
Proof.
  intros org repo dir Horg Hrepo Htok Htruthy HL Hne Hnone HC o.
  destruct (run_backup env inputs w token w1 sources w2 evL backup w3 evC)
    as (pre & E & B1 & B2 & B3 & B4 & B5);
    try assumption; try (now apply truthy_nonempty).
  fold org repo dir in E, B5.
  destruct (moveLoop_none_eligible env token org repo backup sources 0%nat w3 Hnone)
    as (A & Z).
  destruct (moveLoop_spec env token org repo backup sources 0%nat w3)
    as (_ & _ & Fo & Ou & Fa).
  pose proof (moveLoop_fetches env token org repo backup sources 0%nat w3) as Fe.
  rewrite Hnone in Fe. cbn [flat_map] in Fe.
  unfold o. rewrite E, Z, A. cbn [Run.after Run.events]. split_trace.
  rewrite B2, B3, B4, B5, Fo, Ou, Fa, Fe. cbn.
  repeat split. apply in_or_app. right. apply in_or_app. right. now left.
Qed.

(** X21.  The listing is taken from either shape of the answer: a JSON
    array is the listing, and a JSON object is read through its [sources]
    property, with one [GET] in both cases. *)
Theorem listSources_both_shapes token org repo dir (w : World) res w' items :
  fetch env (listRequest token org repo dir) w = (Normal res, w') ->
  200 <= status res <= 299 ->
  status res <> 204 ->
  saysJson res = true ->
  json res = Some (VArray items) \/ json res = Some (VObject (Some items)) ->
  Run.listSources env token org repo dir w
  = Run.Out (Normal items) w'
      [Enter (OpList org repo dir); Fetch (listRequest token org repo dir)].
Proof.
  intros Hf Hs H204 Hjson Hshape.
  assert (D : exists v,
             Run.daFetch env token (listEndpoint org repo dir) Run.noOptions w
             = Run.Out (Normal v) w' [Fetch (listRequest token org repo dir)]
             /\ (v = VArray items \/ v = VObject (Some items))).
  { unfold Run.daFetch, Run.bind, Run.doFetch.
    change (fetch env _ w) with (fetch env (listRequest token org repo dir) w).
    rewrite Hf. unfold ok.
    replace (200 <=? status res) with true by (symmetry; apply N.leb_le; lia).
    replace (status res <=? 299) with true by (symmetry; apply N.leb_le; lia).
    apply N.eqb_neq in H204. rewrite H204. unfold saysJson in Hjson.
    cbn [andb negb]. rewrite Hjson.
    destruct Hshape as [-> | ->]; eexists; split; try reflexivity; auto. }
  destruct D as (v & D & Hv).
  unfold Run.listSources. rewrite bind_emit. fold (listEndpoint org repo dir).
  rewrite (bind_outcome _ _ _ _ _ _ D). now destruct Hv as [-> | ->].
Qed.

Lemma trimStart_spaces s : forallb Js.isSpace s = true -> Js.trimStart s = [].
Proof.
  induction s as [|c s IH]; [reflexivity|]. cbn [forallb Js.trimStart].
  intros H. apply andb_true_iff in H. destruct H as [-> H]. now apply IH.
Qed.

(** X22.  An org or repo made of white space only is refused like a
    missing one: the run fails at the validation and nothing is asked of
    the helper or sent. *)
Theorem run_rejects_blank_inputs (inputs : Inputs) (w : World) :
  forallb Js.isSpace (in_org inputs) = true
  \/ forallb Js.isSpace (in_repo inputs) = true ->
  Run.run env inputs w
  = Run.Out (Normal tt) w
      (failureTrace (Js.lit "Both org and repo inputs are required")).
Proof.
  intros H. apply (run_failure inputs w _ w []). apply runBody_invalid.
  unfold Js.trim.
  destruct H as [H|H]; [left | right]; now rewrite (trimStart_spaces _ H).
Qed.

Lemma trimStart_noLeadingSpace s : noLeadingSpace (Js.trimStart s).
Proof.
  induction s as [|c s IH]; [exact I|]. cbn [Js.trimStart].
  destruct (Js.isSpace c) eqn:E; [exact IH | exact E].
Qed.

Lemma trimStart_fixed s : noLeadingSpace s -> Js.trimStart s = s.
Proof. destruct s as [|c s]; [reflexivity|]. cbn. now intros ->. Qed.

Lemma trimStart_suffix s : exists p, s = p ++ Js.trimStart s.
Proof.
  induction s as [|c s (p & IH)]; [now exists []|]. cbn [Js.trimStart].
  destruct (Js.isSpace c).
  - exists (c :: p). cbn. now rewrite <- IH.
  - now exists [].
Qed.

Lemma noLeadingSpace_prefix a b : noLeadingSpace (a ++ b) -> noLeadingSpace a.
Proof. destruct a; [intros _; exact I | exact (fun H => H)]. Qed.

Lemma trim_idempotent s : Js.trim (Js.trim s) = Js.trim s.
Proof.
  unfold Js.trim.
  set (a := Js.trimStart s). set (b := Js.trimStart (rev a)).
  assert (Hb : noLeadingSpace (rev b)).
  { destruct (trimStart_suffix (rev a)) as (p & E). fold b in E.
    apply (f_equal (@rev N)) in E. rewrite rev_involutive, rev_app_distr in E.
    apply (noLeadingSpace_prefix (rev b) (rev p)). rewrite <- E.
    apply trimStart_noLeadingSpace. }
  rewrite (trimStart_fixed (rev b) Hb), rev_involutive.
  now rewrite (trimStart_fixed b (trimStart_noLeadingSpace (rev a))).
Qed.

(** X23.  White space around the inputs never matters: a run with the
    inputs as given is the run with the trimmed inputs. *)
Theorem run_trims_inputs (inputs : Inputs) (w : World) :
  Run.run env inputs w
  = Run.run env {| in_org := Js.trim (in_org inputs);
                   in_repo := Js.trim (in_repo inputs);
                   in_path := Js.trim (in_path inputs) |} w.
Proof.
  unfold Run.run, Run.runBody. cbn [in_org in_repo in_path].
  now rewrite !trim_idempotent.
Qed.

End RunMore.

(** ** The further properties at work on the scripted environments *)


Lemma encodeSourcePath_urlSafe_witness :
  Wf.wellEscaped (Js.lit "/o/r/a%20b%3F") = true.
Proof.
  apply (UriMore.encodeSourcePath_urlSafe (Js.lit "/o/r/a b?")).
  - repeat constructor.
  - reflexivity.
Defined.

Lemma daFetch_not_ok_witness :
  Run.result (Run.daFetch Sample.env Sample.token (Js.lit "/list/o/r/")
                Run.noOptions [Normal Sample.serverError])
  = Throw (Js.lit "DA Admin API error 500: boom").
Proof.
  exact (f_equal Run.result
           (daFetch_not_ok Sample.env Sample.token (Js.lit "/list/o/r/")
              Run.noOptions [Normal Sample.serverError] Sample.serverError []
              eq_refl (or_intror eq_refl))).
Defined.

Lemma moveStep_ill_formed_path_witness :
  fetches (Run.events
    (Run.moveStep Sample.env Sample.token Sample.org Sample.repo Sample.backup
       Sample2.broken 0 []))
  = [].
Proof.
  exact (f_equal (fun o => fetches (Run.events o))
           (moveStep_ill_formed_path Sample.env Sample.token Sample.org
              Sample.repo Sample.backup Sample2.broken 0%nat [] eq_refl eq_refl)).
Defined.

Lemma moveStep_moved_witness :
  Run.result
    (Run.moveStep Sample.env Sample.token Sample.org Sample.repo Sample.backup
       Sample.index 0 [Normal Sample.created])
  = Normal 1%nat.
Proof.
  assert (Hs : 200 <= status Sample.created <= 299) by (cbn; lia).
  exact (f_equal Run.result
           (proj1 (moveStep_moved Sample.env Sample.token Sample.org Sample.repo
                     Sample.backup Sample.index 0%nat [Normal Sample.created]
                     (Js.lit "/o/r/index") Sample.created [] eq_refl eq_refl
                     eq_refl Hs (or_intror (or_introl eq_refl))))).
Defined.

Lemma moveStep_refused_witness :
  Run.result
    (Run.moveStep Sample.env Sample.token Sample.org Sample.repo Sample.backup
       Sample.index 0 [Normal Sample.serverError])
  = Normal 0%nat.
Proof.
  exact (f_equal Run.result
           (proj1 (moveStep_refused Sample.env Sample.token Sample.org
                     Sample.repo Sample.backup Sample.index 0%nat
                     [Normal Sample.serverError] (Js.lit "/o/r/index")
                     Sample.serverError [] eq_refl eq_refl eq_refl eq_refl))).
Defined.

Lemma moveLoop_all_moved_witness :
  Run.result
    (Run.moveLoop Sample2.always204 Sample.token Sample.org Sample.repo
       Sample.backup [Sample.tools; Sample.index; Sample.about] 0 [])
  = Normal 2%nat.
Proof.
  exact (moveLoop_all_moved Sample2.always204 Sample.token Sample.org
           Sample.repo Sample.backup [Sample.tools; Sample.index; Sample.about]
           0%nat []
           (fun _ w0 => ex_intro _ Sample.noContent
                          (ex_intro _ w0 (conj eq_refl eq_refl)))
           eq_refl).
Defined.

Lemma backup_folder_name_shape_witness :
  List.length (backupName Sample.backup) = 26%nat
  /\ forallb noColonPeriod (backupName Sample.backup) = true
  /\ Js.startsWith (Js.lit "backup-") (backupName Sample.backup) = true.
Proof.
  pose (f := Run.createBackupFolder Sample.env Sample.token Sample.org
               Sample.repo [] [Normal Sample.created]).
  assert (HF : f = Run.Out (Normal Sample.backup) (Run.after f) (Run.events f))
    by (vm_compute; reflexivity).
  exact (backup_folder_name_shape Sample.env Sample.token Sample.org
           Sample.repo [] [Normal Sample.created] Sample.backup
           (Run.after f) (Run.events f) HF).
Defined.

Lemma backup_folder_name_expanded_year_witness :
  (9999 < Date.year (now Sample2.envFarFuture [Normal Sample.created]))%Z
  /\ backupName Sample2.farBackup = Js.lit "backup-+012025-03-09T14-05".
Proof.
  split; [reflexivity|].
  pose (f := Run.createBackupFolder Sample2.envFarFuture Sample.token
               Sample.org Sample.repo [] [Normal Sample.created]).
  assert (HF : f = Run.Out (Normal Sample2.farBackup) (Run.after f)
                     (Run.events f))
    by (vm_compute; reflexivity).
  exact (backup_folder_name_expanded_year Sample2.envFarFuture Sample.token
           Sample.org Sample.repo [] [Normal Sample.created] Sample2.farBackup
           (Run.after f) (Run.events f) HF (or_intror eq_refl)).
Defined.

Lemma run_request_order_witness :
  (folderCalls (Run.events (Run.run Sample.env Sample.inputs
                              (Sample.served [Sample.index]))) <= 1)%nat.
Proof.
  exact (proj1 (proj2 (run_request_order Sample.env Sample.inputs
                         (Sample.served [Sample.index])))).
Defined.

Lemma run_requests_authenticated_witness :
  exists token w1 rest,
    getAccessTokenWithFallback Sample.env (Sample.served [Sample.index])
    = (Normal (Some token), w1)
    /\ token <> []
    /\ url (listRequest Sample.token Sample.org Sample.repo [])
       = Js.lit "https://admin.da.live/" ++ rest
    /\ In (Js.lit "Authorization", Js.lit "Bearer " ++ token)
         (headers (listRequest Sample.token Sample.org Sample.repo []))
    /\ In (Js.lit "Accept", Js.lit "application/json")
         (headers (listRequest Sample.token Sample.org Sample.repo []))
    /\ (In (Js.lit "Content-Type", Js.lit "application/json")
          (headers (listRequest Sample.token Sample.org Sample.repo []))
        <-> body (listRequest Sample.token Sample.org Sample.repo []) = None).
Proof.
  assert (Hin : In (listRequest Sample.token Sample.org Sample.repo [])
                  (fetches (Run.events (Run.run Sample.env Sample.inputs
                                          (Sample.served [Sample.index])))))
    by (vm_compute; left; reflexivity).
  exact (run_requests_authenticated Sample.env Sample.inputs
           (Sample.served [Sample.index]) _ Hin).
Defined.

Lemma run_without_token_witness :
  failures (Run.events (Run.run (Sample2.envWithToken (Normal None))
                          Sample.inputs []))
  = [noTokenMessage].
Proof.
  assert (Horg : Js.trim (in_org Sample.inputs) <> []) by discriminate.
  assert (Hrepo : Js.trim (in_repo Sample.inputs) <> []) by discriminate.
  exact (f_equal (fun o => failures (Run.events o))
           (run_without_token (Sample2.envWithToken (Normal None)) Sample.inputs
              [] None [] Horg Hrepo eq_refl (or_introl eq_refl))).
Defined.

Lemma run_token_helper_throws_witness :
  failures (Run.events
    (Run.run (Sample2.envWithToken (Throw (Js.lit "IMS is down")))
       Sample.inputs []))
  = [Js.lit "IMS is down"].
Proof.
  assert (Horg : Js.trim (in_org Sample.inputs) <> []) by discriminate.
  assert (Hrepo : Js.trim (in_repo Sample.inputs) <> []) by discriminate.
  exact (f_equal (fun o => failures (Run.events o))
           (run_token_helper_throws
              (Sample2.envWithToken (Throw (Js.lit "IMS is down")))
              Sample.inputs [] (Js.lit "IMS is down") [] Horg Hrepo eq_refl)).
Defined.

Lemma run_listing_refused_witness :
  failures (Run.events (Run.run Sample.env Sample.inputs
                          [Normal Sample.serverError]))
  = [Js.lit "DA Admin API error 500: boom"].
Proof.
  assert (Horg : Js.trim (in_org Sample.inputs) <> []) by discriminate.
  assert (Hrepo : Js.trim (in_repo Sample.inputs) <> []) by discriminate.
  assert (Htoken : Sample.token <> []) by discriminate.
  exact (f_equal (fun o => failures (Run.events o))
           (run_listing_refused Sample.env Sample.inputs
              [Normal Sample.serverError] Sample.token
              [Normal Sample.serverError] Sample.serverError []
              Horg Hrepo eq_refl Htoken eq_refl (or_intror eq_refl))).
Defined.

Lemma run_listing_not_json_witness :
  outputs (Run.events (Run.run Sample.env Sample.inputs [Normal Sample2.page]))
  = [(Js.lit "backup_folder_name", Js.lit "no-backup-needed")].
Proof.
  assert (Horg : Js.trim (in_org Sample.inputs) <> []) by discriminate.
  assert (Hrepo : Js.trim (in_repo Sample.inputs) <> []) by discriminate.
  assert (Htoken : Sample.token <> []) by discriminate.
  assert (Hs : 200 <= status Sample2.page <= 299) by (cbn; lia).
  assert (H204 : status Sample2.page <> 204) by discriminate.
  exact (f_equal (fun o => outputs (Run.events o))
           (run_listing_not_json Sample.env Sample.inputs [Normal Sample2.page]
              Sample.token [Normal Sample2.page] Sample2.page []
              Horg Hrepo eq_refl Htoken eq_refl Hs H204 eq_refl)).
Defined.

Lemma run_folder_refused_witness :
  let o := Run.run Sample.env Sample.inputs
             (Sample.folderRefused [Sample.index]) in
  moveCalls (Run.events o) = []
  /\ failures (Run.events o) = [Js.lit "DA Admin API error 500: boom"].
Proof.
  intros o.
  pose (org := Js.trim (in_org Sample.inputs)).
  pose (repo := Js.trim (in_repo Sample.inputs)).
  pose (dir := Js.trim (in_path Sample.inputs)).
  pose (l := Run.listSources Sample.env Sample.token org repo dir
               (Sample.folderRefused [Sample.index])).
  assert (HL : l = Run.Out (Normal [Sample.index]) [Normal Sample.serverError]
                     (Run.events l))
    by (vm_compute; reflexivity).
  assert (Horg : org <> []) by discriminate.
  assert (Hrepo : repo <> []) by discriminate.
  assert (Htoken : Sample.token <> []) by discriminate.
  assert (Hne : [Sample.index] <> []) by discriminate.
  destruct (run_folder_refused Sample.env Sample.inputs
              (Sample.folderRefused [Sample.index]) Sample.token
              (Sample.folderRefused [Sample.index]) [Sample.index]
              [Normal Sample.serverError] (Run.events l) Sample.serverError []
              Horg Hrepo eq_refl Htoken HL Hne eq_refl (or_intror eq_refl))
    as (_ & _ & _ & Mv & _ & Fa).
  split; [exact Mv | exact Fa].
Defined.

Lemma run_nothing_eligible_witness :
  let o := Run.run Sample.env Sample.inputs
             (Sample.served [Sample.tools; Sample.nameOnly]) in
  folderCalls (Run.events o) = 1%nat
  /\ In (completedInfo 0 Sample.backup) (Run.events o).
Proof.
  intros o.
  pose (org := Js.trim (in_org Sample.inputs)).
  pose (repo := Js.trim (in_repo Sample.inputs)).
  pose (dir := Js.trim (in_path Sample.inputs)).
  pose (l := Run.listSources Sample.env Sample.token org repo dir
               (Sample.served [Sample.tools; Sample.nameOnly])).
  pose (f := Run.createBackupFolder Sample.env Sample.token org repo dir
               (Run.after l)).
  assert (HL : l = Run.Out (Normal [Sample.tools; Sample.nameOnly])
                     (Run.after l) (Run.events l))
    by (vm_compute; reflexivity).
  assert (HF : f = Run.Out (Normal Sample.backup) (Run.after f) (Run.events f))
    by (vm_compute; reflexivity).
  assert (Horg : org <> []) by discriminate.
  assert (Hrepo : repo <> []) by discriminate.
  assert (Htoken : Sample.token <> []) by discriminate.
  assert (Hne : [Sample.tools; Sample.nameOnly] <> []) by discriminate.
  destruct (run_nothing_eligible Sample.env Sample.inputs
              (Sample.served [Sample.tools; Sample.nameOnly]) Sample.token
              (Sample.served [Sample.tools; Sample.nameOnly])
              [Sample.tools; Sample.nameOnly] (Run.after l) (Run.events l)
              Sample.backup (Run.after f) (Run.events f)
              Horg Hrepo eq_refl Htoken HL Hne eq_refl HF)
    as (_ & _ & Fo & Hin & _).
  split; [exact Fo | exact Hin].
Defined.

Lemma listSources_both_shapes_witness :
  Run.result (Run.listSources Sample.env Sample.token Sample.org Sample.repo []
                [Normal (Sample2.wrapped [Sample.index])])
  = Normal [Sample.index].
Proof.
  assert (Hs : 200 <= status (Sample2.wrapped [Sample.index]) <= 299)
    by (cbn; lia).
  assert (H204 : status (Sample2.wrapped [Sample.index]) <> 204) by discriminate.
  exact (f_equal Run.result
           (listSources_both_shapes Sample.env Sample.token Sample.org
              Sample.repo [] [Normal (Sample2.wrapped [Sample.index])]
              (Sample2.wrapped [Sample.index]) [] [Sample.index]
              eq_refl Hs H204 eq_refl (or_intror eq_refl))).
Defined.

Lemma run_rejects_blank_inputs_witness :
  fetches (Run.events (Run.run Sample.env Sample.blankOrg [])) = [].
Proof.
  exact (f_equal (fun o => fetches (Run.events o))
           (run_rejects_blank_inputs Sample.env Sample.blankOrg []
              (or_introl eq_refl))).
Defined.
